(** * A shallow embedding of the Pusher-compatible relay (src/index.js)

    The Durable Object [PusherDO] owns three tables: the session registry
    [clients], the channel index [channels] and the presence store
    [presence].  Its methods are embedded as computations in a small monad
    that threads the object's state, records every [ws.send] and carries a
    JavaScript exception when one is raised.

    Conventions of the embedding.
    - A JavaScript value is a [Value]; JSON numbers are the integers.  The
      text of a number is taken to be its decimal text, which is what the
      program computes for the safe integers (of magnitude below 2^53);
      the statements that say which text is signed or which text is a key
      of an object are about values whose numbers are safe
      ([safe_numbers]).
    - [JSON.parse], [JSON.stringify] and the HMAC primitive of
      [crypto.subtle] belong to the host and are parameters of the model,
      as are the two configured environment strings.
    - A [Set<string>] is its list of elements in insertion order and a
      [Map] that the code enumerates is its list of entries in insertion
      order; the maps that are only looked up are [gmap]s.
    - The outbound handle [ws] of a session is named by the registry key it
      is stored under: a send on the handle of entry [sid] is the record
      [(sid, v)], [v] being the value given to [JSON.stringify].
    - A send does not fail, and each method runs to completion before the
      next one starts.
    - A request is the record of what the entry points read of it, and the
      reading of the clock and the random integer from which a socket id
      is formed are arguments of the entry points.
    - Map keys are compared with SameValueZero; the identity of an object
      or array used as a presence key is not tracked (two such keys are
      never the same), so the statements about the deletion of a presence
      key are about primitive user ids ([primitive]). *)

From Stdlib Require Import ZArith Ascii List.
From Stdlib Require String.
From stdpp Require Import base option list strings gmap pretty.

Set Warnings "-register-all,-automation,-clear-no-such-hyp".
Set Default Proof Using "Type".

(** ** JavaScript values *)

Inductive Value : Type :=
| VUndef
| VNull
| VBool (b : bool)
| VNum (n : Z)
| VStr (s : string)
| VArr (items : list Value)
| VObj (props : list (string * Value))
| VFun.

Inductive Error : Type := SyntaxError | TypeError.

Inductive Completion (A : Type) : Type :=
| Normal (a : A)
| Throw (e : Error).
Arguments Normal {A} a.
Arguments Throw {A} e.

(** ToBoolean *)
Definition truthy (v : Value) : bool :=
  match v with
  | VUndef | VNull => false
  | VBool b => b
  | VNum n => negb (n =? 0)%Z
  | VStr s => negb (String.eqb s "")
  | VArr _ | VObj _ | VFun => true
  end.

(** ToString, as used by template literals, property keys and the
    argument of [JSON.parse].  A number is rendered by its decimal text,
    the text of the program for a safe integer ([safe_numbers]). *)
Fixpoint ToString (v : Value) : string :=
  match v with
  | VUndef => "undefined"
  | VNull => "null"
  | VBool true => "true"
  | VBool false => "false"
  | VNum n => pretty n
  | VStr s => s
  | VArr items =>
      let elt x := match x with VUndef | VNull => "" | _ => ToString x end in
      (fix join (l : list Value) : string :=
         match l with
         | [] => ""
         | [x] => elt x
         | x :: rest => elt x +:+ "," +:+ join rest
         end) items
  | VObj _ => "[object Object]"
  | VFun => "() => {}"
  end.


(** [a === b] when [b] is a string. *)
Definition strict_eq_str (a : Value) (b : string) : bool :=
  match a with VStr s => String.eqb s b | _ => false end.

(** SameValueZero, the key equality of [Map] and [Set]. *)
Definition SameValueZero (a b : Value) : bool :=
  match a, b with
  | VUndef, VUndef => true
  | VNull, VNull => true
  | VBool x, VBool y => Bool.eqb x y
  | VNum x, VNum y => (x =? y)%Z
  | VStr x, VStr y => String.eqb x y
  | _, _ => false
  end.

Definition primitive (v : Value) : bool :=
  match v with
  | VArr _ | VObj _ | VFun => false
  | _ => true
  end.

Fixpoint assoc (k : string) (props : list (string * Value)) : option Value :=
  match props with
  | [] => None
  | (k', v) :: rest => if String.eqb k' k then Some v else assoc k rest
  end.

(** Property read [v.k] for the property names the program uses (none of
    them is inherited from a prototype). *)
Definition prop (v : Value) (k : string) : Completion Value :=
  match v with
  | VUndef | VNull => Throw TypeError
  | VObj props => Normal (default VUndef (assoc k props))
  | _ => Normal VUndef
  end.

(** [v.startsWith(p)]: only a string has the method. *)
Definition startsWith (v : Value) (p : string) : Completion bool :=
  match v with
  | VStr s => Normal (String.prefix p s)
  | _ => Throw TypeError
  end.

(** [s.split(sep)] for a one-character separator. *)
Fixpoint split (sep : ascii) (s : string) : list string :=
  match s with
  | EmptyString => [EmptyString]
  | String c s' =>
      if Ascii.eqb c sep then EmptyString :: split sep s'
      else match split sep s' with
           | h :: t => String c h :: t
           | [] => [String c EmptyString]
           end
  end.

(** The values [for (const x of v)] visits, the characters of a string
    one by one; [None] when [v] is not iterable. *)
Definition iterate (v : Value) : option (list Value) :=
  match v with
  | VArr items => Some items
  | VStr s => Some (map (fun c => VStr (String c EmptyString)) (String.list_ascii_of_string s))
  | _ => None
  end.

(** ** Sets and maps in insertion order *)

Definition Set_has (x : string) (s : list string) : bool := bool_decide (x ∈ s).
Definition Set_add (x : string) (s : list string) : list string :=
  if Set_has x s then s else s ++ [x].
Definition Set_delete (x : string) (s : list string) : list string :=
  filter (fun y => y ≠ x) s.

Fixpoint Map_set (k v : Value) (m : list (Value * Value)) : list (Value * Value) :=
  match m with
  | [] => [(k, v)]
  | (k', v') :: rest =>
      if SameValueZero k' k then (k', v) :: rest else (k', v') :: Map_set k v rest
  end.
(** [m.delete(k)]; an object or array that is itself a key is not found
    by this comparison, so the deletion is that of the program for a
    primitive [k]. *)
Definition Map_delete (k : Value) (m : list (Value * Value)) : list (Value * Value) :=
  filter (fun e => negb (SameValueZero (fst e) k)) m.
Definition Map_keys (m : list (Value * Value)) : list Value := map fst m.

(** Property write [o[k] = v] on a plain object. *)
Fixpoint obj_set (k : string) (v : Value) (o : list (string * Value)) : list (string * Value) :=
  match o with
  | [] => [(k, v)]
  | (k', v') :: rest =>
      if String.eqb k' k then (k', v) :: rest else (k', v') :: obj_set k v rest
  end.

Definition Object_fromEntries (m : list (Value * Value)) : Value :=
  VObj (fold_left (fun o e => obj_set (ToString (fst e)) (snd e) o) m []).

(** ** The state of the Durable Object *)

Module User.
Record t : Type := mk { id : Value; info : Value }.
End User.

Module Client.
(** [{ws, channels, user?}]; the handle [ws] is the registry key. *)
Record t : Type := mk { channels : list string; user : option User.t }.
End Client.

Record PusherDO : Type := mkDO {
  clients : gmap string Client.t;
  channels : gmap string (list string);
  presence : gmap string (list (Value * Value))
}.

(** The state the constructor builds. *)
Definition initial : PusherDO := mkDO ∅ ∅ ∅.

(** One [ws.send(JSON.stringify(v))] on the handle of session [to]. *)
Definition Sent : Type := (string * Value)%type.

(** ** The monad of a method body *)

Definition M (A : Type) : Type := PusherDO -> Completion A * PusherDO * list Sent.

Definition ret {A} (a : A) : M A := fun st => (Normal a, st, []).
Definition throw {A} (e : Error) : M A := fun st => (Throw e, st, []).
Definition bind {A B} (m : M A) (k : A -> M B) : M B :=
  fun st =>
    match m st with
    | (Normal a, st1, out1) =>
        match k a st1 with
        | (r, st2, out2) => (r, st2, out1 ++ out2)
        end
    | (Throw e, st1, out1) => (Throw e, st1, out1)
    end.
Definition lift {A} (c : Completion A) : M A :=
  match c with Normal a => ret a | Throw e => throw e end.
Definition get : M PusherDO := fun st => (Normal st, st, []).
Definition modify (f : PusherDO -> PusherDO) : M unit := fun st => (Normal tt, f st, []).
Definition emit (to : string) (v : Value) : M unit := fun st => (Normal tt, st, [(to, v)]).

Notation "x <- m ;; k" := (bind m (fun x => k))
  (at level 100, m at next level, right associativity).
Notation "m ;;; k" := (bind m (fun _ => k))
  (at level 100, right associativity).

Fixpoint for_of {A} (l : list A) (body : A -> M unit) : M unit :=
  match l with
  | [] => ret tt
  | x :: rest => body x ;;; for_of rest body
  end.

(** What a run leaves behind. *)
Definition completion {A} (r : Completion A * PusherDO * list Sent) : Completion A := fst (fst r).
Definition state_of {A} (r : Completion A * PusherDO * list Sent) : PusherDO := snd (fst r).
Definition sent {A} (r : Completion A * PusherDO * list Sent) : list Sent := snd r.

(** ** Hexadecimal rendering of a digest (the tail of [hmac]) *)

Definition hex_digit (d : N) : ascii :=
  match d with
  | 0 => "0" | 1 => "1" | 2 => "2" | 3 => "3" | 4 => "4" | 5 => "5" | 6 => "6"
  | 7 => "7" | 8 => "8" | 9 => "9" | 10 => "a" | 11 => "b" | 12 => "c"
  | 13 => "d" | 14 => "e" | _ => "f"
  end%N%char.

(** [b.toString(16)] for a byte *)
Definition toString16 (b : N) : string :=
  if (b <? 16)%N then String (hex_digit b) EmptyString
  else String (hex_digit (b / 16)) (String (hex_digit (b mod 16)) EmptyString).

(** [s.padStart(2, "0")] *)
Definition padStart2 (s : string) : string :=
  match String.length s with
  | 0 => "00"
  | 1 => "0" +:+ s
  | _ => s
  end.

Definition hex (bytes : list N) : string :=
  String.concat "" (map (fun b => padStart2 (toString16 b)) bytes).

Definition is_lower_hex (c : ascii) : bool :=
  existsb (Ascii.eqb c) (String.list_ascii_of_string "0123456789abcdef").

Fixpoint all_chars (P : ascii -> bool) (s : string) : bool :=
  match s with
  | EmptyString => true
  | String c s' => P c && all_chars P s'
  end.

(** ** The frames the server sends *)

Definition error_frame (message : string) : Value :=
  VObj [("event", VStr "pusher:error");
        ("data", VObj [("message", VStr message); ("code", VNum 4009)])].

Definition pong_frame : Value :=
  VObj [("event", VStr "pusher:pong"); ("data", VStr "{}")].

(** ** Requests and responses

    What the two [fetch] entry points read of a request: the path of its
    URL, its method, the value of its [Upgrade] header ([None] when the
    header is absent) and the text of its body. *)

Module Request.
Record t : Type := mk {
  pathname : string;
  method : string;
  upgrade : option string;
  body : string
}.
End Request.

(** [new Response(body, {status, headers, webSocket})]: the content type
    is the one the code gives, and the client end of a [WebSocketPair] is
    named by the id its server end is registered under. *)
Module Response.
Record t : Type := mk {
  status : Z;
  body : option string;
  content_type : option string;
  webSocket : option string
}.
End Response.

(** [s.endsWith(suffix)] *)
Fixpoint endsWith (s suffix : string) : bool :=
  String.eqb s suffix
  || match s with
     | EmptyString => false
     | String _ s' => endsWith s' suffix
     end.

(** [h === "websocket"] for the value [h] of [request.headers.get("Upgrade")]. *)
Definition is_websocket (h : option string) : bool :=
  match h with
  | Some v => String.eqb v "websocket"
  | None => false
  end.

(** The socket id of line 72 for the reading [now] of the clock and the
    integer [random] that [Math.floor(Math.random() * 1e6)] gives. *)
Definition socketId_at (now random : Z) : string :=
  ToString (VNum now) +:+ "." +:+ ToString (VNum random).

(** [new Response("Not found", { status: 404 })] *)
Definition not_found : Response.t := Response.mk 404 (Some "Not found") None None.

(** A text without a full stop. *)
Definition dot_free (s : string) : bool :=
  all_chars (fun c => negb (Ascii.eqb c ".")) s.

(** ** A host for the examples

    The theorems hold for every host.  The examples run on this one: its
    [JSON.parse] knows the texts the examples use, its [JSON.stringify]
    writes a value without escapes, and its signing primitive returns
    four bytes computed from the lengths of its arguments. *)

Module Example.

Definition dquote : ascii := ascii_of_nat 34.
Definition quoted (s : string) : string := String dquote (s +:+ String dquote EmptyString).

Fixpoint stringify (v : Value) : string :=
  match v with
  | VUndef | VFun => "undefined"
  | VNull => "null"
  | VBool true => "true"
  | VBool false => "false"
  | VNum n => pretty n
  | VStr s => quoted s
  | VArr items =>
      "[" +:+
      (fix join (l : list Value) : string :=
         match l with
         | [] => ""
         | [x] => stringify x
         | x :: rest => stringify x +:+ "," +:+ join rest
         end) items +:+ "]"
  | VObj props =>
      "{" +:+
      (fix join (l : list (string * Value)) : string :=
         match l with
         | [] => ""
         | (k, x) :: rest =>
             quoted k +:+ ":" +:+ stringify x +:+
             (match rest with [] => "" | _ => "," end) +:+ join rest
         end) props +:+ "}"
  end.

Definition sign (secret msg : string) : list N :=
  [N.of_nat (String.length secret) mod 256; N.of_nat (String.length msg) mod 256; 10; 255]%N.

Definition key : string := "app-key".
Definition secret : string := "app-secret".

(** The credential [key:signature] for a signed text. *)
Definition credential (base : string) : Value :=
  VStr (key +:+ ":" +:+ hex (sign secret base)).

(** The values whose texts [parse] knows. *)
Definition u1 : Value := VObj [("user_id", VStr "u1"); ("user_info", VObj [("name", VStr "Ann")])].
Definition u2 : Value := VObj [("user_id", VStr "u2"); ("user_info", VObj [("name", VStr "Bob")])].
Definition bad_presence : Value :=
  VObj [("channel", VStr "presence-room"); ("channel_data", VStr "not json")].
Definition bad_subscribe : Value :=
  VObj [("event", VStr "pusher:subscribe"); ("data", bad_presence)].
Definition signed_bad_presence : Value :=
  VObj [("channel", VStr "presence-room");
        ("auth", credential "A:presence-room:not json");
        ("channel_data", VStr "not json")].
Definition signed_bad_subscribe : Value :=
  VObj [("event", VStr "pusher:subscribe"); ("data", signed_bad_presence)].
Definition known : list Value :=
  [VNull; VObj []; u1; u2; bad_presence; bad_subscribe;
   signed_bad_presence; signed_bad_subscribe].

Definition parse (text : string) : option Value :=
  List.find (fun v => String.eqb (stringify v) text) known.

End Example.

(** The example host with the texts of more frames and of a publish. *)
Module Traffic.
Import Example.

Definition ping : Value := VObj [("event", VStr "pusher:ping"); ("data", VObj [])].
Definition hello : Value := VObj [("event", VStr "hello"); ("data", VObj [])].
Definition news : Value := VObj [("channel", VStr "news")].
Definition publish_chat : Value :=
  VObj [("name", VStr "test-event"); ("data", VStr "hi");
        ("channels", VArr [VStr "private-chat"])].
Definition publish_news : Value :=
  VObj [("name", VStr "test-event"); ("data", VStr "hi");
        ("channels", VArr [VStr "news"])].
(** The frame by which [A] asks for [presence-room] as [u1], and a third
    identity. *)
Definition join_room : Value :=
  VObj [("channel", VStr "presence-room");
        ("auth", credential ("A:presence-room:" +:+ stringify u1));
        ("channel_data", VStr (stringify u1))].
Definition subscribe_room : Value :=
  VObj [("event", VStr "pusher:subscribe"); ("data", join_room)].
Definition u3 : Value := VObj [("user_id", VStr "u3"); ("user_info", VObj [("name", VStr "Cy")])].
Definition frames : list Value :=
  known ++ [ping; hello; news; publish_chat; publish_news; join_room; subscribe_room; u3].

Definition parse (text : string) : option Value :=
  List.find (fun v => String.eqb (stringify v) text) frames.

End Traffic.

(** ** The methods of [PusherDO] *)

Section Host.

(** [JSON.parse] on a text: [None] when it raises SyntaxError. *)
Variable JSON_parse : string -> option Value.
(** [JSON.stringify] on a value that has a JSON text. *)
Variable JSON_stringify : Value -> string.
(** The bytes [crypto.subtle.sign("HMAC", key, msg)] returns for the key
    imported from the text [secret] with hash SHA-256. *)
Variable subtle_sign : string -> string -> list N.
(** [env.PUSHER_APP_KEY] and [env.PUSHER_APP_SECRET] *)
Variable PUSHER_APP_KEY : string.
Variable PUSHER_APP_SECRET : string.

Definition hmac (secret msg : string) : string := hex (subtle_sign secret msg).

(** [JSON.parse(text)] *)
Definition parse_or_throw (text : string) : M Value :=
  match JSON_parse text with
  | Some v => ret v
  | None => throw SyntaxError
  end.

(** [this.clients.get(sid)?.ws.send(JSON.stringify(v))]; the argument is
    evaluated only when the entry exists. *)
Definition send_if_registered (sid : string) (v : M Value) : M unit :=
  st <- get ;;
  match clients st !! sid with
  | Some _ => f <- v ;; emit sid f
  | None => ret tt
  end.

(** The assignments through the alias [client] of the registry entry. *)
Definition update_client (socketId : string) (f : Client.t -> Client.t) : M unit :=
  modify (fun st => mkDO (alter f socketId (clients st)) (channels st) (presence st)).

Definition connection_established (socketId : string) : Value :=
  VObj [("event", VStr "pusher:connection_established");
        ("data", VStr (JSON_stringify
                   (VObj [("socket_id", VStr socketId); ("activity_timeout", VNum 120)])))].

Definition acceptWebSocket (socketId : string) : M unit :=
  modify (fun st => mkDO (<[socketId := Client.mk [] None]> (clients st))
                         (channels st) (presence st)) ;;;
  emit socketId (connection_established socketId).

(** *** subscribe *)

Definition snapshot (members : list (Value * Value)) : Value :=
  let ids := Map_keys members in
  let hash := Object_fromEntries members in
  let count := VNum (Z.of_nat (length ids)) in
  VObj [("presence", VObj [("ids", VArr ids); ("hash", hash); ("count", count)])].

Definition member_added (channel : string) (u : User.t) : Value :=
  VObj [("event", VStr "pusher_internal:member_added");
        ("channel", VStr channel);
        ("data", VStr (JSON_stringify
                   (VObj [("user_id", User.id u); ("user_info", User.info u)])))].

(** [client.user.id] and [client.user.info] read through the alias. *)
Definition client_user (socketId : string) : M User.t :=
  st <- get ;;
  match clients st !! socketId with
  | Some {| Client.user := Some u |} => ret u
  | _ => throw TypeError
  end.

Definition subscription_succeeded_internal (channel data : string) : Value :=
  VObj [("event", VStr "pusher_internal:subscription_succeeded");
        ("channel", VStr channel); ("data", VStr data)].

Definition subscription_succeeded_presence (channel : string) (count : Value) : Value :=
  VObj [("event", VStr "pusher:subscription_succeeded");
        ("channel", VStr channel);
        ("members", VObj [("count", count); ("each", VFun)])].

Definition subscription_succeeded (channel : string) : Value :=
  VObj [("event", VStr "pusher:subscription_succeeded");
        ("channel", VStr channel); ("data", VStr "{}")].

(** Lines 159-199: the registration in both tables, the acknowledgments
    and the member-added fan-out. *)
Definition subscribe_join (socketId channel : string) : M unit :=
  modify (fun st =>
    mkDO (clients st)
         (<[channel := Set_add socketId (default [] (channels st !! channel))]> (channels st))
         (presence st)) ;;;
  update_client socketId (fun c =>
    Client.mk (Set_add channel (Client.channels c)) (Client.user c)) ;;;
  if String.prefix "presence-" channel then
    st <- get ;;
    let members := default [] (presence st !! channel) in
    let count := VNum (Z.of_nat (length (Map_keys members))) in
    emit socketId
      (subscription_succeeded_internal channel (JSON_stringify (snapshot members))) ;;;
    emit socketId (subscription_succeeded_presence channel count) ;;;
    for_of (default [] (channels st !! channel)) (fun sid =>
      if String.eqb sid socketId then ret tt
      else send_if_registered sid
             (u <- client_user socketId ;; ret (member_added channel u)))
  else
    emit socketId (subscription_succeeded_internal channel "{}") ;;;
    emit socketId (subscription_succeeded channel).

(** Lines 151-156: the identity and the presence entry. *)
Definition subscribe_presence (socketId channel : string) (channel_data : Value) : M unit :=
  channelData <- parse_or_throw (ToString channel_data) ;;
  user_id <- lift (prop channelData "user_id") ;;
  user_info <- lift (prop channelData "user_info") ;;
  update_client socketId (fun c =>
    Client.mk (Client.channels c) (Some (User.mk user_id user_info))) ;;;
  modify (fun st =>
    mkDO (clients st) (channels st)
         (<[channel := Map_set user_id user_info (default [] (presence st !! channel))]>
            (presence st))).

(** The text that is signed. *)
Definition auth_base (socketId channel : string) (channel_data : Value) : string :=
  socketId +:+ ":" +:+ channel +:+
  (if truthy channel_data then ":" +:+ ToString channel_data else "").

Definition subscribe (socketId : string) (payload : Value) : M unit :=
  channel <- lift (prop payload "channel") ;;
  st <- get ;;
  match clients st !! socketId with
  | None => ret tt
  | Some _ =>
      match channel with
      | VStr channel =>
          if String.prefix "private-" channel || String.prefix "presence-" channel then
            auth <- lift (prop payload "auth") ;;
            if negb (truthy auth) then emit socketId (error_frame "Auth required")
            else
              match auth with
              | VStr auth =>
                  let parts := split ":" auth in
                  let key := default VUndef (VStr <$> parts !! 0) in
                  let signature := default VUndef (VStr <$> parts !! 1) in
                  if negb (strict_eq_str key PUSHER_APP_KEY)
                  then emit socketId (error_frame "Invalid key")
                  else
                    channel_data <- lift (prop payload "channel_data") ;;
                    let base := auth_base socketId channel channel_data in
                    let expected := hmac PUSHER_APP_SECRET base in
                    if negb (strict_eq_str signature expected)
                    then emit socketId (error_frame "Invalid signature")
                    else
                      (if String.prefix "presence-" channel
                       then subscribe_presence socketId channel channel_data
                       else ret tt) ;;;
                      subscribe_join socketId channel
              | _ => throw TypeError (* [auth.split] is not a function *)
              end
          else subscribe_join socketId channel
      | _ => throw TypeError (* [channel.startsWith] is not a function *)
      end
  end.

(** *** unsubscribe *)

Definition member_removed (channel : string) (u : User.t) : Value :=
  VObj [("event", VStr "pusher_internal:member_removed");
        ("channel", VStr channel);
        ("data", VStr (JSON_stringify (VObj [("user_id", User.id u)])))].

(** [this.channels.get(channel)]: the index has string keys only. *)
Definition channels_get (st : PusherDO) (channel : Value) : option (list string) :=
  match channel with
  | VStr c => channels st !! c
  | _ => None
  end.

Definition unsubscribe (socketId : string) (channel : Value) : M unit :=
  st <- get ;;
  match clients st !! socketId with
  | None => ret tt
  | Some client =>
      match channel with
      | VStr channel =>
          update_client socketId (fun c =>
            Client.mk (Set_delete channel (Client.channels c)) (Client.user c)) ;;;
          let set := Set_delete socketId <$> channels st !! channel in
          match set with
          | Some set =>
              modify (fun st =>
                mkDO (clients st)
                     (if Nat.eqb (length set) 0 then delete channel (channels st)
                      else <[channel := set]> (channels st))
                     (presence st))
          | None => ret tt
          end ;;;
          if String.prefix "presence-" channel then
            match Client.user client with
            | Some u =>
                modify (fun st =>
                  mkDO (clients st) (channels st)
                       (alter (Map_delete (User.id u)) channel (presence st))) ;;;
                for_of (default [] set) (fun sid =>
                  send_if_registered sid (ret (member_removed channel u)))
            | None => ret tt
            end
          else ret tt
      | _ => throw TypeError (* [channel.startsWith] is not a function *)
      end
  end.

(** *** clientEvent *)

Definition relayed (event channel data : Value) (client : Client.t) : Value :=
  VObj [("event", event); ("channel", channel); ("data", data);
        ("user_id", from_option User.id VUndef (Client.user client))].

Definition clientEvent (socketId : string) (channel event data : Value) : M unit :=
  st <- get ;;
  match clients st !! socketId with
  | None => ret tt
  | Some client =>
      match channel with
      | VStr ch =>
          if negb (Set_has ch (Client.channels client)) then ret tt
          else if negb (String.prefix "private-" ch) && negb (String.prefix "presence-" ch)
          then ret tt
          else
            match channels st !! ch with
            | None => ret tt
            | Some set =>
                for_of set (fun sid =>
                  if String.eqb sid socketId then ret tt
                  else send_if_registered sid (ret (relayed event channel data client)))
            end
      | _ => ret tt (* [client.channels] holds strings only *)
      end
  end.

(** *** broadcast *)

Definition published (name channel data : Value) : Value :=
  VObj [("event", name); ("channel", channel); ("data", data)].

Definition broadcast (body : Value) : M unit :=
  name <- lift (prop body "name") ;;
  data <- lift (prop body "data") ;;
  chans <- lift (prop body "channels") ;;
  socket_id <- lift (prop body "socket_id") ;;
  match iterate chans with
  | None => throw TypeError (* [channels] is not iterable *)
  | Some chans =>
      for_of chans (fun channel =>
        st <- get ;;
        match channels_get st channel with
        | None => ret tt
        | Some set =>
            for_of set (fun sid =>
              if strict_eq_str socket_id sid then ret tt
              else send_if_registered sid (ret (published name channel data)))
        end)
  end.

(** *** onClose *)

Definition onClose (socketId : string) : M unit :=
  st <- get ;;
  match clients st !! socketId with
  | None => ret tt
  | Some client =>
      for_of (Client.channels client) (fun channel => unsubscribe socketId (VStr channel)) ;;;
      modify (fun st => mkDO (delete socketId (clients st)) (channels st) (presence st))
  end.

(** *** onMessage *)

Definition onMessage (socketId : string) (ev_data : string) : M unit :=
  match JSON_parse ev_data with
  | None => ret tt
  | Some msg =>
      event <- lift (prop msg "event") ;;
      d <- lift (prop msg "data") ;;
      let data :=
        match d with
        | VStr s => s
        | _ => JSON_stringify (if truthy d then d else VObj [])
        end in
      if strict_eq_str event "pusher:ping" then
        send_if_registered socketId (ret pong_frame)
      else if strict_eq_str event "pusher:subscribe" then
        payload <- parse_or_throw data ;;
        subscribe socketId payload
      else if strict_eq_str event "pusher:unsubscribe" then
        payload <- parse_or_throw data ;;
        channel <- lift (prop payload "channel") ;;
        unsubscribe socketId channel
      else if truthy event then
        match event with
        | VStr e =>
            if String.prefix "client-" e then
              channel <- lift (prop msg "channel") ;;
              clientEvent socketId channel event (VStr data)
            else ret tt
        | _ => throw TypeError (* [event.startsWith] is not a function *)
        end
      else ret tt
  end.

(** ** The states a method can leave *)

Definition subscribers (st : PusherDO) (channel : string) : list string :=
  default [] (channels st !! channel).

Definition live (st : PusherDO) (sid : string) : Prop := is_Some (clients st !! sid).

(** After lines 159-161. *)
Definition joined (socketId channel : string) (st : PusherDO) : PusherDO :=
  mkDO (alter (fun c => Client.mk (Set_add channel (Client.channels c)) (Client.user c))
              socketId (clients st))
       (<[channel := Set_add socketId (default [] (channels st !! channel))]> (channels st))
       (presence st).

(** After lines 153-155. *)
Definition identified (socketId channel : string) (user_id user_info : Value)
    (st : PusherDO) : PusherDO :=
  mkDO (alter (fun c => Client.mk (Client.channels c) (Some (User.mk user_id user_info)))
              socketId (clients st))
       (channels st)
       (<[channel := Map_set user_id user_info (default [] (presence st !! channel))]>
          (presence st)).

(** After lines 205-210. *)
Definition parted (socketId channel : string) (st : PusherDO) : PusherDO :=
  mkDO (alter (fun c => Client.mk (Set_delete channel (Client.channels c)) (Client.user c))
              socketId (clients st))
       (match Set_delete socketId <$> channels st !! channel with
        | Some set => if Nat.eqb (length set) 0 then delete channel (channels st)
                      else <[channel := set]> (channels st)
        | None => channels st
        end)
       (presence st).

(** After line 213. *)
Definition forgotten (user_id : Value) (channel : string) (st : PusherDO) : PusherDO :=
  mkDO (clients st) (channels st) (alter (Map_delete user_id) channel (presence st)).

(** After line 259. *)
Definition removed (socketId : string) (st : PusherDO) : PusherDO :=
  mkDO (delete socketId (clients st)) (channels st) (presence st).

(** A computation that leaves the state as it was. *)
Definition readonly {A} (m : M A) : Prop := forall st, state_of (m st) = st.

(** ** The predicates of the specification *)

(** The channel types that need a credential. *)
Definition protected (channel : string) : bool :=
  String.prefix "private-" channel || String.prefix "presence-" channel.


(** The credential check the code makes: the first two colon-separated
    fields of [auth] are the application key and the hexadecimal HMAC of
    the signed text; further fields are not looked at. *)
Definition verifies (socketId channel : string) (payload : Value) : bool :=
  match prop payload "auth", prop payload "channel_data" with
  | Normal (VStr auth), Normal channel_data =>
      match split ":" auth with
      | key :: signature :: _ =>
          String.eqb key PUSHER_APP_KEY
          && String.eqb signature
               (hmac PUSHER_APP_SECRET (auth_base socketId channel channel_data))
      | _ => false
      end
  | _, _ => false
  end.

(** A text without a colon. *)
Definition colon_free (s : string) : bool :=
  all_chars (fun c => negb (Ascii.eqb c ":")) s.

(** The three ways a credential fails. *)
Inductive AuthFailure (socketId channel : string) (payload : Value) : string -> Prop :=
| auth_missing auth :
    prop payload "auth" = Normal auth -> truthy auth = false ->
    AuthFailure socketId channel payload "Auth required"
| auth_wrong_key auth :
    prop payload "auth" = Normal (VStr auth) -> auth <> "" ->
    split ":" auth !! 0 <> Some PUSHER_APP_KEY ->
    AuthFailure socketId channel payload "Invalid key"
| auth_wrong_signature auth channel_data :
    prop payload "auth" = Normal (VStr auth) -> auth <> "" ->
    split ":" auth !! 0 = Some PUSHER_APP_KEY ->
    prop payload "channel_data" = Normal channel_data ->
    split ":" auth !! 1
      <> Some (hmac PUSHER_APP_SECRET (auth_base socketId channel channel_data)) ->
    AuthFailure socketId channel payload "Invalid signature".

(** A session is in a channel's subscriber set exactly when the channel
    is in the session's channel set. *)
Definition consistent (st : PusherDO) : Prop :=
  forall sid ch,
    sid ∈ subscribers st ch <->
    exists c, clients st !! sid = Some c /\ ch ∈ Client.channels c.

(** Every entry of the channel index has a subscriber. *)
Definition no_orphans (st : PusherDO) : Prop :=
  forall ch set, channels st !! ch = Some set -> set <> [].

(** The lists that stand for sets have no repetition. *)
Definition nodup_sets (st : PusherDO) : Prop :=
  forall ch set, channels st !! ch = Some set -> NoDup set.

(** What one listed channel contributes to a publish. *)
Definition deliveries (st : PusherDO) (name data socket_id channel : Value) : list Sent :=
  match channels_get st channel with
  | None => []
  | Some set =>
      (fun s => (s, published name channel data))
        <$> filter (fun s => strict_eq_str socket_id s = false /\ live st s) set
  end.

(** A property that the two writes of [unsubscribe] keep. *)
Definition closed_under_leaving (P : PusherDO -> Prop) : Prop :=
  (forall sid ch st, P st -> P (parted sid ch st)) /\
  (forall uid ch st, P st -> P (forgotten uid ch st)).

(** After line 79. *)
Definition accepted (socketId : string) (st : PusherDO) : PusherDO :=
  mkDO (<[socketId := Client.mk [] None]> (clients st)) (channels st) (presence st).

(** The states the object goes through: it starts in [initial] and is
    driven by connections (whose session id is not that of a live
    session), inbound frames, publishes and disconnections. *)
Inductive reachable : PusherDO -> Prop :=
| reach_initial : reachable initial
| reach_accept st sid :
    reachable st -> clients st !! sid = None ->
    reachable (state_of (acceptWebSocket sid st))
| reach_message st sid text :
    reachable st -> reachable (state_of (onMessage sid text st))
| reach_publish st body :
    reachable st -> reachable (state_of (broadcast body st))
| reach_close st sid :
    reachable st -> reachable (state_of (onClose sid st)).

(** The sessions one listing of channel [ch] in a publish reaches. *)
Definition recipients (st : PusherDO) (socket_id : Value) (ch : string) : list string :=
  filter (fun s => strict_eq_str socket_id s = false) (subscribers st ch).


(** The text [onMessage] parses as the payload of an event. *)
Definition data_text (d : Value) : string :=
  match d with
  | VStr s => s
  | _ => JSON_stringify (if truthy d then d else VObj [])
  end.



(** C10 in the words of the specification, for [subscribe]: with a
    session id that is not in the registry it returns without raising,
    sends nothing and changes nothing, whatever its payload. *)
Definition subscribe_of_unknown_session_returns : Prop :=
  forall st sid payload,
    clients st !! sid = None ->
    subscribe sid payload st = (Normal tt, st, []).



(** ** Requests and states for the examples *)

(** The credential [key:signature] of the application for a signed text. *)
Definition auth_for (base : string) : Value :=
  VStr (PUSHER_APP_KEY +:+ ":" +:+ hmac PUSHER_APP_SECRET base).

(** The presence request of session [sid] for [channel] with identity [u]. *)
Definition presence_request (sid channel : string) (u : Value) : list (string * Value) :=
  [("channel", VStr channel);
   ("auth", auth_for (auth_base sid channel (VStr (JSON_stringify u))));
   ("channel_data", VStr (JSON_stringify u))].

(** The private request of session [sid] for [channel]. *)
Definition private_request (sid channel : string) : list (string * Value) :=
  [("channel", VStr channel); ("auth", auth_for (auth_base sid channel VUndef))].

(** Sessions [A] and [B] are connected. *)
Definition connected : PusherDO :=
  state_of (acceptWebSocket "B" (state_of (acceptWebSocket "A" initial))).

(** The state once the request object [props] of session [sid] was handled. *)
Definition after_subscribe (sid : string) (props : list (string * Value))
    (st : PusherDO) : PusherDO :=
  state_of (subscribe sid (VObj props) st).

(** ** The entry points *)

(** Lines 68-75. *)
Definition handleWebSocket (now random : Z) : M Response.t :=
  let socketId := socketId_at now random in
  acceptWebSocket socketId ;;;
  ret (Response.mk 101 None None (Some socketId)).

(** The response of line 56. *)
Definition sent_response : Response.t :=
  Response.mk 202 (Some (JSON_stringify (VObj [("sent", VBool true)])))
    (Some "application/json") None.

(** Lines 54-59: [request.json()] parses the text of the body. *)
Definition publish (request : Request.t) : M Response.t :=
  body <- parse_or_throw (Request.body request) ;;
  broadcast body ;;;
  ret sent_response.

(** [fetch] of the Durable Object, lines 46-63. *)
Definition fetch (now random : Z) (request : Request.t) : M Response.t :=
  if is_websocket (Request.upgrade request) then handleWebSocket now random
  else if endsWith (Request.pathname request) "/events"
          && String.eqb (Request.method request) "POST"
  then publish request
  else ret not_found.

(** [fetch] of the default export, lines 264-282, for the value
    [PUSHER_APP_ID] of [env.PUSHER_APP_ID]: [stub.fetch(request)] runs
    [fetch] of the one object that is named by the application id. *)
Definition worker_fetch (PUSHER_APP_ID : string) (now random : Z)
    (request : Request.t) : M Response.t :=
  let wsPath := "/app/" +:+ PUSHER_APP_KEY in
  let httpPath := "/apps/" +:+ PUSHER_APP_ID +:+ "/events" in
  if String.eqb (Request.pathname request) wsPath
     && is_websocket (Request.upgrade request)
  then fetch now random request
  else if String.eqb (Request.pathname request) httpPath
          && String.eqb (Request.method request) "POST"
  then fetch now random request
  else ret not_found.

(** ** Further predicates on states *)

(** The presence store has entries for presence channels only. *)
Definition presence_on_presence_channels (st : PusherDO) : Prop :=
  forall ch, is_Some (presence st !! ch) -> String.prefix "presence-" ch = true.

(** * Properties *)

(** ** Running the building blocks *)

(** [naive_solver], once the host parameters that the goal does not
    mention are out of the context. *)
Local Ltac prop_solver :=
  try clear PUSHER_APP_SECRET; try clear PUSHER_APP_KEY; try clear subtle_sign;
  try clear JSON_stringify; try clear JSON_parse; naive_solver.

Lemma bind_normal {A B} (m : M A) (k : A -> M B) st a st1 out1 :
  m st = (Normal a, st1, out1) ->
  bind m k st = (completion (k a st1), state_of (k a st1), out1 ++ sent (k a st1)).
Proof.
  intros Hm. unfold bind. rewrite Hm. by destruct (k a st1) as [[r s] o].
Qed.

Lemma bind_throw {A B} (m : M A) (k : A -> M B) st e st1 out1 :
  m st = (Throw e, st1, out1) -> bind m k st = (Throw e, st1, out1).
Proof. intros Hm. unfold bind. by rewrite Hm. Qed.

Lemma state_bind {A B} (m : M A) (k : A -> M B) st :
  state_of (bind m k st) =
  match completion (m st) with
  | Normal a => state_of (k a (state_of (m st)))
  | Throw _ => state_of (m st)
  end.
Proof.
  unfold bind, completion, state_of.
  destruct (m st) as [[[a|e] s] o]; simpl; [|reflexivity].
  destruct (k a s) as [[r s'] o']; reflexivity.
Qed.

Lemma readonly_bind {A B} (m : M A) (k : A -> M B) :
  readonly m -> (forall a, readonly (k a)) -> readonly (bind m k).
Proof.
  intros Hm Hk st. rewrite state_bind, Hm. destruct (completion (m st)); [apply Hk | done].
Qed.

Lemma readonly_ret {A} (a : A) : readonly (ret a).
Proof. done. Qed.
Lemma readonly_throw {A} e : readonly (@throw A e).
Proof. done. Qed.
Lemma readonly_get : readonly get.
Proof. done. Qed.
Lemma readonly_emit to v : readonly (emit to v).
Proof. done. Qed.
Lemma readonly_lift {A} (c : Completion A) : readonly (lift c).
Proof. by destruct c. Qed.
Lemma readonly_parse text : readonly (parse_or_throw text).
Proof. unfold parse_or_throw. by destruct (JSON_parse text). Qed.

Lemma readonly_for_of {A} (l : list A) (body : A -> M unit) :
  (forall x, readonly (body x)) -> readonly (for_of l body).
Proof.
  intros Hb. induction l as [|x l IH]; [done|].
  simpl. apply readonly_bind; [apply Hb | done].
Qed.

Lemma readonly_client_user sid : readonly (client_user sid).
Proof.
  intros st. unfold client_user. rewrite state_bind. simpl.
  by destruct (clients st !! sid) as [[chs [u|]]|].
Qed.

Lemma readonly_send_if_registered sid (v : M Value) :
  readonly v -> readonly (send_if_registered sid v).
Proof.
  intros Hv st. unfold send_if_registered. rewrite state_bind. simpl.
  destruct (clients st !! sid); [|done].
  apply readonly_bind; [done | intros; apply readonly_emit].
Qed.

Create HintDb readonly.
#[local] Hint Resolve readonly_ret readonly_throw readonly_get readonly_emit readonly_lift
  readonly_parse readonly_for_of readonly_client_user readonly_send_if_registered
  readonly_bind : readonly.

(** A fan-out reaches the sessions of the set that are not skipped and
    are in the registry, in the order of the set. *)
Lemma fan_out_run (l : list string) (skip : string -> bool) (v : M Value) (f : Value) st :
  v st = (Normal f, st, []) ->
  for_of l (fun sid => if skip sid then ret tt else send_if_registered sid v) st
  = (Normal tt, st,
     (fun sid => (sid, f)) <$> filter (fun sid => skip sid = false /\ live st sid) l).
Proof.
  intros Hv. induction l as [|x l IH]; [done|].
  cbn [for_of]. rewrite filter_cons.
  assert (Hx : (if skip x then ret tt else send_if_registered x v) st
               = (Normal tt, st,
                  if decide (skip x = false /\ live st x) then [(x, f)] else [])).
  { destruct (skip x) eqn:Hs.
    - rewrite decide_False by (intros [? _]; done). done.
    - unfold send_if_registered, live. erewrite bind_normal by reflexivity. simpl.
      destruct (clients st !! x) as [c|] eqn:Hc.
      + rewrite decide_True by (split; [done | by eexists]).
        erewrite bind_normal by exact Hv. done.
      + rewrite decide_False by (intros [_ [? ?]]; done). done. }
  erewrite bind_normal by exact Hx. rewrite IH. unfold completion, state_of, sent. simpl.
  by destruct (decide (skip x = false /\ live st x)).
Qed.

Lemma modify_bind {B} (f : PusherDO -> PusherDO) (k : unit -> M B) st :
  bind (modify f) k st = k tt (f st).
Proof. unfold bind, modify. by destruct (k tt (f st)) as [[r s] o]. Qed.

Lemma get_bind {B} (k : PusherDO -> M B) st : bind get k st = k st st.
Proof. unfold bind, get. by destruct (k st st) as [[r s] o]. Qed.

Lemma ret_bind {A B} (a : A) (k : A -> M B) st : bind (ret a) k st = k a st.
Proof. unfold bind, ret. by destruct (k a st) as [[r s] o]. Qed.

Lemma throw_bind {A B} e (k : A -> M B) st : bind (throw e) k st = (Throw e, st, []).
Proof. done. Qed.

Lemma emit_bind {B} to v (k : unit -> M B) st :
  bind (emit to v) k st = (completion (k tt st), state_of (k tt st), (to, v) :: sent (k tt st)).
Proof. unfold bind, emit. by destruct (k tt st) as [[r s] o]. Qed.

Lemma update_client_bind {B} sid f (k : unit -> M B) st :
  bind (update_client sid f) k st
  = k tt (mkDO (alter f sid (clients st)) (channels st) (presence st)).
Proof. unfold update_client. apply modify_bind. Qed.

Lemma triple_eta {A} (r : Completion A * PusherDO * list Sent) :
  (completion r, state_of r, sent r) = r.
Proof. by destruct r as [[? ?] ?]. Qed.

Lemma client_user_run sid st chs u :
  clients st !! sid = Some (Client.mk chs (Some u)) ->
  client_user sid st = (Normal u, st, []).
Proof. intros H. unfold client_user. rewrite get_bind, H. done. Qed.

(** *** subscribe *)

Lemma subscribe_join_state sid ch st :
  state_of (subscribe_join sid ch st) = joined sid ch st.
Proof.
  unfold subscribe_join. rewrite modify_bind, update_client_bind. simpl.
  fold (joined sid ch st).
  destruct (String.prefix "presence-" ch).
  - apply (readonly_bind get); [done|]. intros st'.
    repeat (apply readonly_bind; [apply readonly_emit | intros _]).
    apply readonly_for_of. intros x. destruct (String.eqb x sid); auto 6 with readonly.
  - apply (readonly_bind (emit _ _)); [done | intros _; apply readonly_emit].
Qed.

Lemma live_joined sid ch st s : live (joined sid ch st) s <-> live st s.
Proof.
  unfold live, joined. simpl. destruct (decide (sid = s)) as [->|Hne].
  - rewrite lookup_alter_eq. by rewrite fmap_is_Some.
  - by rewrite lookup_alter_ne.
Qed.

Lemma subscribers_joined sid ch st ch' :
  subscribers (joined sid ch st) ch'
  = if decide (ch = ch') then Set_add sid (subscribers st ch') else subscribers st ch'.
Proof.
  unfold subscribers, joined. simpl. case_decide as Hc.
  - subst. by rewrite lookup_insert_eq.
  - by rewrite lookup_insert_ne.
Qed.

Lemma filter_others_Set_add (P : string -> Prop) `{!forall x, Decision (P x)} sid l :
  (~ P sid) -> filter P (Set_add sid l) = filter P l.
Proof.
  intros Hn. unfold Set_add. destruct (Set_has sid l); [done|].
  rewrite filter_app, filter_cons_False, filter_nil by done. apply app_nil_r.
Qed.

(** The non-presence tail: two acknowledgments to the subscriber. *)
Lemma subscribe_join_run_plain sid ch st :
  String.prefix "presence-" ch = false ->
  subscribe_join sid ch st
  = (Normal tt, joined sid ch st,
     [(sid, subscription_succeeded_internal ch "{}"); (sid, subscription_succeeded ch)]).
Proof.
  intros Hp. unfold subscribe_join. rewrite modify_bind, update_client_bind. simpl.
  fold (joined sid ch st). rewrite Hp. done.
Qed.

(** The presence tail: the snapshot, then member-added to the other
    sessions of the set. *)
Lemma subscribe_join_run_presence sid ch st chs u :
  String.prefix "presence-" ch = true ->
  clients st !! sid = Some (Client.mk chs (Some u)) ->
  let members := default [] (presence st !! ch) in
  subscribe_join sid ch st
  = (Normal tt, joined sid ch st,
     (sid, subscription_succeeded_internal ch (JSON_stringify (snapshot members)))
     :: (sid, subscription_succeeded_presence ch (VNum (Z.of_nat (length (Map_keys members)))))
     :: ((fun s => (s, member_added ch u))
           <$> filter (fun s => s <> sid /\ live st s) (subscribers st ch))).
Proof.
  intros Hp Hc members. unfold subscribe_join.
  rewrite modify_bind, update_client_bind. simpl. fold (joined sid ch st).
  rewrite Hp, get_bind, !emit_bind.
  set (body := fun sid0 : string => _).
  assert (Hu : (u0 <- client_user sid ;; ret (member_added ch u0)) (joined sid ch st)
               = (Normal (member_added ch u), joined sid ch st, [])).
  { rewrite (bind_normal _ _ _ u (joined sid ch st) []); [done|].
    eapply client_user_run. unfold joined. simpl. rewrite lookup_alter_eq, Hc. done. }
  pose proof (fan_out_run (default [] (channels (joined sid ch st) !! ch))
                (fun s => String.eqb s sid) _ _ _ Hu) as Hrun.
  subst body. cbv beta in Hrun |- *. rewrite Hrun.
  unfold completion, state_of, sent. simpl. do 4 f_equal.
  rewrite lookup_insert_eq. simpl. fold (subscribers st ch).
  rewrite (list_filter_iff _ (fun s => s <> sid /\ live st s)).
  - apply filter_others_Set_add. prop_solver.
  - intros s. rewrite live_joined, String.eqb_neq. done.
Qed.

Lemma subscribe_presence_run sid ch cd st v user_id user_info :
  JSON_parse (ToString cd) = Some v ->
  prop v "user_id" = Normal user_id ->
  prop v "user_info" = Normal user_info ->
  subscribe_presence sid ch cd st = (Normal tt, identified sid ch user_id user_info st, []).
Proof.
  intros Hv Hid Hinfo. unfold subscribe_presence, parse_or_throw.
  rewrite Hv, ret_bind, Hid. simpl. rewrite ret_bind, Hinfo. simpl.
  rewrite ret_bind, update_client_bind. done.
Qed.

Lemma subscribe_presence_syntax_error sid ch cd st :
  JSON_parse (ToString cd) = None ->
  subscribe_presence sid ch cd st = (Throw SyntaxError, st, []).
Proof. intros Hv. unfold subscribe_presence, parse_or_throw. by rewrite Hv. Qed.

(** A value other than [null] and [undefined] has every property read
    succeed. *)
Lemma prop_total v k k' x : prop v k = Normal x -> exists y, prop v k' = Normal y.
Proof. destruct v; simpl; intros; try done; eauto. Qed.

Lemma subscribe_presence_cases sid ch cd st :
  (exists e, subscribe_presence sid ch cd st = (Throw e, st, [])) \/
  (exists user_id user_info,
     subscribe_presence sid ch cd st
     = (Normal tt, identified sid ch user_id user_info st, [])).
Proof.
  destruct (JSON_parse (ToString cd)) as [v|] eqn:Hv.
  - destruct (prop v "user_id") as [uid|e] eqn:Hid.
    + destruct (prop_total _ _ "user_info" _ Hid) as [uinfo Hinfo].
      right. exists uid, uinfo. by apply (subscribe_presence_run _ _ _ _ v).
    + left. exists e. unfold subscribe_presence, parse_or_throw.
      rewrite Hv, ret_bind, Hid. done.
  - left. exists SyntaxError. by apply subscribe_presence_syntax_error.
Qed.

Lemma split_nonempty sep s : exists h t, split sep s = h :: t.
Proof.
  induction s as [|c s IH]; simpl; [by eauto|].
  destruct (Ascii.eqb c sep); [by eauto|].
  destruct IH as (h & t & ->). eauto.
Qed.

Lemma truthy_VStr s : truthy (VStr s) = true <-> s <> "".
Proof.
  simpl. rewrite negb_true_iff. split.
  - intros H ->. done.
  - intros H. by apply String.eqb_neq.
Qed.

Lemma strict_eq_str_VStr a b : strict_eq_str (VStr a) b = String.eqb a b.
Proof. done. Qed.

(** A credential that verifies lets the request through to the presence
    step and the registration. *)
Lemma subscribe_run_verified sid c props ch st :
  clients st !! sid = Some c ->
  prop (VObj props) "channel" = Normal (VStr ch) ->
  protected ch = true ->
  verifies sid ch (VObj props) = true ->
  subscribe sid (VObj props) st
  = ((if String.prefix "presence-" ch
      then subscribe_presence sid ch (default VUndef (assoc "channel_data" props))
      else ret tt) ;;; subscribe_join sid ch) st.
Proof.
  intros Hc Hch Hprot Hver. unfold subscribe. rewrite Hch. simpl lift.
  rewrite ret_bind, get_bind, Hc. unfold protected in Hprot. rewrite Hprot.
  unfold verifies in Hver. simpl in Hver |- *.
  destruct (default VUndef (assoc "auth" props)) as [| | | |auth| | |] eqn:Ha; try done.
  destruct (split_nonempty ":" auth) as (key & rest & Hs). rewrite Hs in Hver.
  destruct rest as [|signature rest]; [done|].
  apply andb_true_iff in Hver as [Hk Hsig].
  rewrite ret_bind.
  assert (Hne : auth <> "").
  { intros ->. simpl in Hs. by simplify_eq. }
  apply truthy_VStr in Hne. rewrite Hne. simpl negb. cbv iota.
  rewrite Hs. simpl. rewrite Hk. simpl. rewrite ret_bind, Hsig. done.
Qed.

(** Each failure is answered with one error event and nothing else. *)
Lemma subscribe_run_rejected sid c props ch st message :
  clients st !! sid = Some c ->
  prop (VObj props) "channel" = Normal (VStr ch) ->
  protected ch = true ->
  AuthFailure sid ch (VObj props) message ->
  subscribe sid (VObj props) st = (Normal tt, st, [(sid, error_frame message)]).
Proof.
  intros Hc Hch Hprot Hfail. unfold subscribe. rewrite Hch. simpl lift.
  rewrite ret_bind, get_bind, Hc. unfold protected in Hprot. rewrite Hprot.
  rewrite ret_bind.
  destruct Hfail as [auth Ha Hf|auth Ha Hne Hk|auth cd Ha Hne Hk Hcd Hsig];
    simpl in Ha; injection Ha as ->.
  - rewrite Hf. done.
  - apply truthy_VStr in Hne. rewrite Hne. simpl negb. cbv iota.
    destruct (split_nonempty ":" auth) as (key & rest & Hs). rewrite Hs in Hk |- *.
    simpl in Hk |- *. destruct (String.eqb key PUSHER_APP_KEY) eqn:Hkey; [|done].
    apply String.eqb_eq in Hkey. congruence.
  - apply truthy_VStr in Hne. rewrite Hne. simpl negb. cbv iota.
    destruct (split_nonempty ":" auth) as (key & rest & Hs). rewrite Hs in Hk, Hsig |- *.
    simpl in Hk, Hsig, Hcd |- *. simplify_eq. rewrite String.eqb_refl. simpl.
    rewrite ret_bind.
    destruct rest as [|signature rest]; simpl in *; [done|].
    destruct (String.eqb signature _) eqn:Hs'; [|done].
    apply String.eqb_eq in Hs'. congruence.
Qed.

(** A credential that is neither absent nor a string has no [split]. *)
Lemma subscribe_run_auth_not_string sid c props ch st auth :
  clients st !! sid = Some c ->
  prop (VObj props) "channel" = Normal (VStr ch) ->
  protected ch = true ->
  prop (VObj props) "auth" = Normal auth ->
  truthy auth = true -> (forall a, auth <> VStr a) ->
  subscribe sid (VObj props) st = (Throw TypeError, st, []).
Proof.
  intros Hc Hch Hprot Ha Ht Hns. unfold subscribe. rewrite Hch. simpl lift.
  rewrite ret_bind, get_bind, Hc. unfold protected in Hprot. rewrite Hprot.
  rewrite ret_bind. simpl in Ha. injection Ha as ->. rewrite Ht. simpl.
  destruct auth; try done. by destruct (Hns s).
Qed.

Lemma auth_cases sid ch props :
  let auth := default VUndef (assoc "auth" props) in
  verifies sid ch (VObj props) = true \/
  (exists message, AuthFailure sid ch (VObj props) message) \/
  (truthy auth = true /\ forall a, auth <> VStr a).
Proof.
  intros auth. destruct (truthy auth) eqn:Ht.
  2:{ right. left. eexists. by eapply auth_missing. }
  destruct auth as [| | | |a| | |] eqn:Ha; try (right; right; by split).
  apply truthy_VStr in Ht.
  destruct (split_nonempty ":" a) as (key & rest & Hs).
  destruct (String.eqb key PUSHER_APP_KEY) eqn:Hk.
  - apply String.eqb_eq in Hk. subst key.
    set (cd := default VUndef (assoc "channel_data" props)).
    set (expected := hmac PUSHER_APP_SECRET (auth_base sid ch cd)).
    destruct (decide (rest !! 0 = Some expected)) as [He|He].
    + left. unfold verifies. simpl. fold auth. rewrite Ha, Hs.
      destruct rest as [|sig rest]; simpl in He; [done|]. simplify_eq.
      by rewrite !String.eqb_refl.
    + right. left. eexists. eapply auth_wrong_signature; [exact (f_equal Normal Ha)|done| | |].
      * by rewrite Hs.
      * done.
      * fold cd expected. by rewrite Hs.
  - right. left. eexists. eapply auth_wrong_key; [exact (f_equal Normal Ha)|done|].
    rewrite Hs. simpl. intros [=->]. by rewrite String.eqb_refl in Hk.
Qed.

(** The states [subscribe] can leave, whatever the request. *)
Lemma subscribe_state sid payload st :
  state_of (subscribe sid payload st) = st \/
  (live st sid /\ exists ch,
     state_of (subscribe sid payload st) = joined sid ch st \/
     exists user_id user_info,
       state_of (subscribe sid payload st)
       = joined sid ch (identified sid ch user_id user_info st)).
Proof.
  unfold subscribe.
  destruct (prop payload "channel") as [channel|e]; [|by left].
  simpl lift. rewrite ret_bind, get_bind.
  destruct (clients st !! sid) as [c|] eqn:Hc; [|by left].
  assert (Hlive : live st sid) by by eexists.
  destruct channel as [| | | |ch| | |]; try by left.
  destruct (String.prefix "private-" ch || String.prefix "presence-" ch).
  2:{ right. split; [done|]. exists ch. left. apply subscribe_join_state. }
  destruct (prop payload "auth") as [auth|e]; [|by left].
  simpl lift. rewrite ret_bind.
  destruct (negb (truthy auth)); [by left|].
  destruct auth as [| | | |auth| | |]; try by left.
  destruct (negb _); [by left|].
  destruct (prop payload "channel_data") as [cd|e]; [|by left].
  simpl lift. rewrite ret_bind.
  destruct (negb _); [by left|].
  rewrite state_bind.
  destruct (String.prefix "presence-" ch).
  - destruct (subscribe_presence_cases sid ch cd st)
      as [[e ->]|(uid & uinfo & ->)]; [by left|].
    right. split; [done|]. exists ch. right. exists uid, uinfo.
    apply subscribe_join_state.
  - right. split; [done|]. exists ch. left. apply subscribe_join_state.
Qed.

Lemma elem_of_Set_add x y (l : list string) : x ∈ Set_add y l <-> x = y \/ x ∈ l.
Proof.
  unfold Set_add, Set_has. case_bool_decide as Hy.
  - split; [by right|]. intros [->|]; done.
  - rewrite elem_of_app, list_elem_of_singleton. prop_solver.
Qed.

Lemma elem_of_Set_delete x y (l : list string) : x ∈ Set_delete y l <-> x <> y /\ x ∈ l.
Proof. unfold Set_delete. by rewrite list_elem_of_filter. Qed.

Lemma NoDup_Set_add x (l : list string) : NoDup l -> NoDup (Set_add x l).
Proof.
  intros Hl. unfold Set_add, Set_has. case_bool_decide as Hx; [done|].
  apply NoDup_app. split_and!; [done| |apply NoDup_singleton].
  intros y Hy ->%list_elem_of_singleton. done.
Qed.

Lemma NoDup_Set_delete x (l : list string) : NoDup l -> NoDup (Set_delete x l).
Proof. apply NoDup_filter. Qed.

Lemma Set_add_nonempty x (l : list string) : Set_add x l <> [].
Proof.
  unfold Set_add. destruct (Set_has x l) eqn:Hx.
  - unfold Set_has in Hx. apply bool_decide_eq_true in Hx. intros ->. by apply not_elem_of_nil in Hx.
  - by destruct l.
Qed.

Lemma Set_delete_fresh x (l : list string) : x ∉ l -> Set_delete x l = l.
Proof.
  unfold Set_delete. induction l as [|y l IH]; [done|].
  intros Hx. apply not_elem_of_cons in Hx as [Hne Hx].
  rewrite filter_cons_True by done. by rewrite IH.
Qed.

Lemma Set_delete_idem x (l : list string) :
  Set_delete x (Set_delete x l) = Set_delete x l.
Proof. apply Set_delete_fresh. rewrite elem_of_Set_delete. by intros [? _]. Qed.

Lemma Set_add_present x (l : list string) : x ∈ l -> Set_add x l = l.
Proof. intros Hx. unfold Set_add, Set_has. by rewrite bool_decide_eq_true_2. Qed.

Lemma Set_delete_Set_add x (l : list string) : x ∉ l -> Set_delete x (Set_add x l) = l.
Proof.
  intros Hx. unfold Set_add, Set_has. rewrite bool_decide_eq_false_2 by done.
  unfold Set_delete. rewrite filter_app.
  fold (Set_delete x l). rewrite Set_delete_fresh by done.
  rewrite filter_cons_False by (intros H; by apply H).
  by rewrite filter_nil, app_nil_r.
Qed.

Lemma consistent_joined sid ch st :
  live st sid -> consistent st -> consistent (joined sid ch st).
Proof.
  intros [c Hc] Hst s ch'. rewrite subscribers_joined. unfold joined. simpl.
  destruct (decide (sid = s)) as [->|Hs].
  - rewrite lookup_alter_eq, Hc. simpl. case_decide as Hch.
    + subst ch'. rewrite elem_of_Set_add. split; [|by left].
      intros _. eexists. split; [done|]. simpl. apply elem_of_Set_add. by left.
    + rewrite (Hst s ch'), Hc. split.
      * intros (c' & [= <-] & Hin). eexists. split; [done|]. simpl.
        apply elem_of_Set_add. by right.
      * intros (c' & [= <-] & Hin). simpl in Hin. apply elem_of_Set_add in Hin as [->|Hin]; [done|].
        by exists c.
  - rewrite lookup_alter_ne by done. case_decide as Hch.
    + subst ch'. rewrite elem_of_Set_add, (Hst s ch). prop_solver.
    + apply Hst.
Qed.

Lemma consistent_identified sid ch uid uinfo st :
  consistent st -> consistent (identified sid ch uid uinfo st).
Proof.
  intros Hst s ch'. unfold subscribers, identified. simpl.
  fold (subscribers st ch'). rewrite (Hst s ch').
  destruct (decide (sid = s)) as [->|Hs].
  - rewrite lookup_alter_eq. destruct (clients st !! s) as [c|]; simpl; [|prop_solver].
    split; intros (c' & [= <-] & Hin); eexists; (split; [done|]); done.
  - by rewrite lookup_alter_ne.
Qed.

Lemma no_orphans_joined sid ch st : no_orphans st -> no_orphans (joined sid ch st).
Proof.
  intros Hst ch' set. unfold joined. simpl.
  destruct (decide (ch = ch')) as [->|Hne].
  - rewrite lookup_insert_eq. intros [= <-]. apply Set_add_nonempty.
  - rewrite lookup_insert_ne by done. apply Hst.
Qed.

Lemma nodup_sets_joined sid ch st : nodup_sets st -> nodup_sets (joined sid ch st).
Proof.
  intros Hst ch' set. unfold joined. simpl.
  destruct (decide (ch = ch')) as [->|Hne].
  - rewrite lookup_insert_eq. intros [= <-]. apply NoDup_Set_add.
    destruct (channels st !! ch') as [l|] eqn:Hl; simpl; [by eapply Hst | apply NoDup_nil_2].
  - rewrite lookup_insert_ne by done. apply Hst.
Qed.

(** *** unsubscribe *)

Lemma subscribers_parted sid ch st ch' :
  subscribers (parted sid ch st) ch'
  = if decide (ch = ch') then Set_delete sid (subscribers st ch') else subscribers st ch'.
Proof.
  unfold subscribers, parted. cbn [channels].
  destruct (channels st !! ch) as [set|] eqn:Hset; cbn [fmap option_fmap option_map].
  - destruct (Nat.eqb _ 0) eqn:Hlen.
    + apply Nat.eqb_eq, length_zero_iff_nil in Hlen. case_decide as Hc.
      * subst ch'. rewrite lookup_delete_eq, Hset. symmetry. exact Hlen.
      * by rewrite lookup_delete_ne.
    + case_decide as Hc.
      * subst ch'. by rewrite lookup_insert_eq, Hset.
      * by rewrite lookup_insert_ne.
  - case_decide as Hc; [|done]. subst ch'. by rewrite Hset.
Qed.

Lemma live_parted sid ch st s : live (parted sid ch st) s <-> live st s.
Proof.
  unfold live, parted. simpl. destruct (decide (sid = s)) as [->|Hne].
  - rewrite lookup_alter_eq. by rewrite fmap_is_Some.
  - by rewrite lookup_alter_ne.
Qed.

Lemma unsubscribe_run sid c ch st :
  clients st !! sid = Some c ->
  unsubscribe sid (VStr ch) st
  = if String.prefix "presence-" ch then
      match Client.user c with
      | Some u =>
          (Normal tt, forgotten (User.id u) ch (parted sid ch st),
           (fun s => (s, member_removed ch u))
             <$> filter (live st) (Set_delete sid (subscribers st ch)))
      | None => (Normal tt, parted sid ch st, [])
      end
    else (Normal tt, parted sid ch st, []).
Proof.
  intros Hc. unfold unsubscribe. rewrite get_bind, Hc, update_client_bind.
  set (st1 := mkDO _ _ _).
  assert (Hst : (match Set_delete sid <$> channels st !! ch with
                 | Some set =>
                     modify (fun st0 =>
                       mkDO (clients st0)
                         (if Nat.eqb (length set) 0 then delete ch (channels st0)
                          else <[ch:=set]> (channels st0))
                         (presence st0))
                 | None => ret tt
                 end) st1 = (Normal tt, parted sid ch st, [])).
  { unfold parted, st1. by destruct (channels st !! ch). }
  erewrite bind_normal by exact Hst. simpl app.
  destruct (String.prefix "presence-" ch); [|done].
  destruct (Client.user c) as [u|]; [|done].
  rewrite modify_bind. fold (forgotten (User.id u) ch (parted sid ch st)).
  pose proof (fan_out_run (default [] (Set_delete sid <$> channels st !! ch))
                (fun _ => false) (ret (member_removed ch u)) (member_removed ch u)
                (forgotten (User.id u) ch (parted sid ch st)) eq_refl) as Hrun.
  cbv beta iota in Hrun. rewrite Hrun. unfold completion, state_of, sent. simpl.
  do 2 f_equal.
  replace (default [] (Set_delete sid <$> channels st !! ch))
    with (Set_delete sid (subscribers st ch))
    by (unfold subscribers; by destruct (channels st !! ch)).
  apply list_filter_iff. intros s. cbv beta.
  change (live (forgotten (User.id u) ch (parted sid ch st)) s)
    with (live (parted sid ch st) s).
  rewrite live_parted. prop_solver.
Qed.

Lemma unsubscribe_unregistered sid channel st :
  clients st !! sid = None -> unsubscribe sid channel st = (Normal tt, st, []).
Proof. intros Hc. unfold unsubscribe. by rewrite get_bind, Hc. Qed.

Lemma unsubscribe_not_string sid c channel st :
  clients st !! sid = Some c -> (forall ch, channel <> VStr ch) ->
  unsubscribe sid channel st = (Throw TypeError, st, []).
Proof.
  intros Hc Hn. unfold unsubscribe. rewrite get_bind, Hc.
  destruct channel; try done. by destruct (Hn s).
Qed.

Lemma unsubscribe_state sid channel st :
  state_of (unsubscribe sid channel st) = st \/
  (live st sid /\ exists ch,
     channel = VStr ch /\
     (state_of (unsubscribe sid channel st) = parted sid ch st \/
      exists user_id,
        state_of (unsubscribe sid channel st) = forgotten user_id ch (parted sid ch st))).
Proof.
  destruct (clients st !! sid) as [c|] eqn:Hc.
  2:{ left. by rewrite unsubscribe_unregistered. }
  destruct channel as [| | | |ch| | |];
    try (left; by erewrite unsubscribe_not_string).
  right. split; [by eexists|]. exists ch. split; [done|].
  rewrite (unsubscribe_run _ c) by done.
  destruct (String.prefix "presence-" ch); [|by left].
  destruct (Client.user c) as [u|]; [|by left].
  right. by exists (User.id u).
Qed.

Lemma consistent_parted sid ch st : consistent st -> consistent (parted sid ch st).
Proof.
  intros Hst s ch'. rewrite subscribers_parted. unfold parted. simpl.
  destruct (decide (sid = s)) as [->|Hs].
  - rewrite lookup_alter_eq. case_decide as Hch.
    + subst ch'. rewrite elem_of_Set_delete. split; [prop_solver|].
      intros (c' & Hc' & Hin). destruct (clients st !! s) as [c|]; simplify_eq/=.
      apply elem_of_Set_delete in Hin. prop_solver.
    + rewrite (Hst s ch'). destruct (clients st !! s) as [c|]; simpl; [|prop_solver].
      split.
      * intros (c' & ? & Hin). simplify_eq. eexists. split; [done|]. simpl.
        apply elem_of_Set_delete. done.
      * intros (c' & ? & Hin). simplify_eq/=. apply elem_of_Set_delete in Hin as [_ Hin].
        by exists c.
  - rewrite lookup_alter_ne by done. case_decide as Hch.
    + subst ch'. rewrite elem_of_Set_delete, (Hst s ch). prop_solver.
    + apply Hst.
Qed.

Lemma consistent_forgotten uid ch st : consistent st -> consistent (forgotten uid ch st).
Proof. done. Qed.

Lemma no_orphans_parted sid ch st : no_orphans st -> no_orphans (parted sid ch st).
Proof.
  intros Hst ch' set. unfold parted. cbn [channels].
  destruct (channels st !! ch) as [l|] eqn:Hl; cbn [fmap option_fmap option_map]; [|apply Hst].
  destruct (Nat.eqb _ 0) eqn:Hlen.
  - intros [_ H]%lookup_delete_Some. by eapply Hst.
  - destruct (decide (ch = ch')) as [->|Hne].
    + rewrite lookup_insert_eq. intros [= <-] Hnil. by rewrite Hnil in Hlen.
    + rewrite lookup_insert_ne by done. apply Hst.
Qed.

Lemma nodup_sets_parted sid ch st : nodup_sets st -> nodup_sets (parted sid ch st).
Proof.
  intros Hst ch' set. unfold parted. cbn [channels].
  destruct (channels st !! ch) as [l|] eqn:Hl; cbn [fmap option_fmap option_map]; [|apply Hst].
  destruct (Nat.eqb _ 0) eqn:Hlen.
  - intros [_ H]%lookup_delete_Some. by eapply Hst.
  - destruct (decide (ch = ch')) as [->|Hne].
    + rewrite lookup_insert_eq. intros [= <-]. apply NoDup_Set_delete. by eapply Hst.
    + rewrite lookup_insert_ne by done. apply Hst.
Qed.

(** *** clientEvent *)

Lemma clientEvent_run sid c ch event data st :
  clients st !! sid = Some c ->
  clientEvent sid (VStr ch) event data st
  = (Normal tt, st,
     if Set_has ch (Client.channels c) && protected ch
     then (fun s => (s, relayed event (VStr ch) data c))
            <$> filter (fun s => s <> sid /\ live st s) (subscribers st ch)
     else []).
Proof.
  intros Hc. unfold clientEvent. rewrite get_bind, Hc.
  destruct (Set_has ch (Client.channels c)); simpl; [|done].
  unfold protected. destruct (String.prefix "private-" ch), (String.prefix "presence-" ch);
    simpl; try done.
  all: unfold subscribers; destruct (channels st !! ch) as [set|]; simpl; [|done].
  all: rewrite (fan_out_run set (fun s => String.eqb s sid) _ (relayed event (VStr ch) data c))
         by done.
  all: do 2 f_equal; apply list_filter_iff; intros s; by rewrite String.eqb_neq.
Qed.

Lemma clientEvent_unregistered sid channel event data st :
  clients st !! sid = None -> clientEvent sid channel event data st = (Normal tt, st, []).
Proof. intros Hc. unfold clientEvent. by rewrite get_bind, Hc. Qed.

Lemma clientEvent_not_string sid channel event data st :
  (forall ch, channel <> VStr ch) ->
  clientEvent sid channel event data st = (Normal tt, st, []).
Proof.
  intros Hn. unfold clientEvent. rewrite get_bind.
  destruct (clients st !! sid); [|done]. destruct channel; try done. by destruct (Hn s).
Qed.

Lemma clientEvent_state sid channel event data st :
  state_of (clientEvent sid channel event data st) = st.
Proof.
  destruct (clients st !! sid) as [c|] eqn:Hc.
  - destruct channel as [| | | |ch| | |];
      try (by rewrite clientEvent_not_string).
    by rewrite (clientEvent_run _ c).
  - by rewrite clientEvent_unregistered.
Qed.

Lemma broadcast_loop_run name data socket_id chans st :
  for_of chans (fun channel =>
    st <- get ;;
    match channels_get st channel with
    | None => ret tt
    | Some set =>
        for_of set (fun sid =>
          if strict_eq_str socket_id sid then ret tt
          else send_if_registered sid (ret (published name channel data)))
    end) st
  = (Normal tt, st, concat (deliveries st name data socket_id <$> chans)).
Proof.
  induction chans as [|channel chans IH]; [done|].
  cbn [for_of fmap list_fmap concat].
  erewrite bind_normal; [rewrite IH; reflexivity|].
  rewrite get_bind. unfold deliveries.
  destruct (channels_get st channel) as [set|]; [|done].
  by rewrite (fan_out_run set (strict_eq_str socket_id) _ (published name channel data)).
Qed.

Lemma broadcast_run props chans st :
  iterate (default VUndef (assoc "channels" props)) = Some chans ->
  broadcast (VObj props) st
  = (Normal tt, st,
     concat (deliveries st (default VUndef (assoc "name" props))
                           (default VUndef (assoc "data" props))
                           (default VUndef (assoc "socket_id" props)) <$> chans)).
Proof.
  intros Hit. unfold broadcast. simpl. rewrite !ret_bind, Hit.
  apply broadcast_loop_run.
Qed.

Lemma broadcast_state body st : state_of (broadcast body st) = st.
Proof.
  unfold broadcast.
  destruct (prop body "name") as [name|e] eqn:Hn; [|done].
  destruct (prop_total _ _ "data" _ Hn) as [data ->].
  destruct (prop_total _ _ "channels" _ Hn) as [chans ->].
  destruct (prop_total _ _ "socket_id" _ Hn) as [socket_id ->].
  simpl. rewrite !ret_bind. destruct (iterate chans) as [l|]; [|done].
  by rewrite broadcast_loop_run.
Qed.

Lemma unsubscribe_preserves (P : PusherDO -> Prop) sid channel st :
  closed_under_leaving P -> P st -> P (state_of (unsubscribe sid channel st)).
Proof.
  intros [Hp Hf] Hst.
  destruct (unsubscribe_state sid channel st)
    as [->|(_ & ch & _ & [->|(uid & ->)])]; auto.
Qed.

Lemma onClose_loop_preserves (P : PusherDO -> Prop) sid l st :
  closed_under_leaving P -> P st ->
  P (state_of (for_of l (fun ch => unsubscribe sid (VStr ch)) st)).
Proof.
  intros HP. revert st. induction l as [|ch l IH]; intros st Hst; [done|].
  cbn [for_of]. rewrite state_bind.
  pose proof (unsubscribe_preserves P sid (VStr ch) st HP Hst) as H1.
  destruct (completion _); [by apply IH | done].
Qed.

Lemma onClose_loop_client sid l : forall st c,
  clients st !! sid = Some c ->
  let r := for_of l (fun ch => unsubscribe sid (VStr ch)) st in
  completion r = Normal tt /\
  exists c', clients (state_of r) !! sid = Some c' /\
    Client.user c' = Client.user c /\
    forall ch, ch ∈ Client.channels c' -> ch ∈ Client.channels c /\ ch ∉ l.
Proof.
  induction l as [|ch l IH]; intros st c Hc.
  - split; [done|]. exists c. split_and!; [done..|]. intros ch Hin. split; [done|].
    apply not_elem_of_nil.
  - cbv zeta. cbn [for_of].
    set (c1 := Client.mk (Set_delete ch (Client.channels c)) (Client.user c)).
    assert (exists st1 out1, unsubscribe sid (VStr ch) st = (Normal tt, st1, out1)
                             /\ clients st1 !! sid = Some c1) as (st1 & out1 & Hrun & Hc1).
    { rewrite (unsubscribe_run _ c) by done.
      assert (Hp : clients (parted sid ch st) !! sid = Some c1)
        by (unfold parted; simpl; by rewrite lookup_alter_eq, Hc).
      destruct (String.prefix "presence-" ch); [|by eauto].
      destruct (Client.user c); by eauto. }
    erewrite bind_normal by exact Hrun.
    destruct (IH st1 c1 Hc1) as (Hn & c' & Hc' & Hu & Hch).
    unfold completion, state_of in *. simpl. split; [done|].
    exists c'. split_and!; [done..|].
    intros ch' Hin. destruct (Hch ch' Hin) as [Hin1 Hnl].
    simpl in Hin1. apply elem_of_Set_delete in Hin1 as [Hne Hin1].
    split; [done|]. rewrite not_elem_of_cons. done.
Qed.

Lemma onClose_unregistered sid st :
  clients st !! sid = None -> onClose sid st = (Normal tt, st, []).
Proof. intros Hc. unfold onClose. by rewrite get_bind, Hc. Qed.

Lemma onClose_registered sid c st :
  clients st !! sid = Some c ->
  let loop := for_of (Client.channels c) (fun ch => unsubscribe sid (VStr ch)) st in
  onClose sid st = (Normal tt, removed sid (state_of loop), sent loop).
Proof.
  intros Hc loop. unfold onClose. rewrite get_bind, Hc.
  destruct (onClose_loop_client sid (Client.channels c) st c Hc) as [Hn _].
  rewrite (bind_normal _ _ st tt (state_of loop) (sent loop)).
  - unfold completion, state_of, sent. simpl. by rewrite app_nil_r.
  - fold loop. cbv zeta in Hn. fold loop in Hn. rewrite <- Hn. symmetry. apply triple_eta.
Qed.

Lemma consistent_removed sid st :
  consistent st -> (forall ch, sid ∉ subscribers st ch) -> consistent (removed sid st).
Proof.
  intros Hst Hout s ch. unfold subscribers, removed. simpl. fold (subscribers st ch).
  destruct (decide (sid = s)) as [->|Hne].
  - rewrite lookup_delete_eq. split; [by intros ?%Hout | by intros (? & ? & _)].
  - rewrite lookup_delete_ne by done. apply Hst.
Qed.

(** *** onMessage and acceptWebSocket *)

Lemma send_if_registered_state sid f st :
  state_of (send_if_registered sid (ret f) st) = st.
Proof. apply readonly_send_if_registered, readonly_ret. Qed.

Lemma onMessage_state sid text st :
  state_of (onMessage sid text st) = st \/
  (exists payload, state_of (onMessage sid text st) = state_of (subscribe sid payload st)) \/
  (exists channel, state_of (onMessage sid text st) = state_of (unsubscribe sid channel st)).
Proof.
  unfold onMessage. destruct (JSON_parse text) as [msg|]; [|by left].
  destruct (prop msg "event") as [event|e] eqn:He; [|by left].
  destruct (prop_total _ _ "data" _ He) as [d ->].
  destruct (prop_total _ _ "channel" _ He) as [channel ->].
  simpl lift. rewrite !ret_bind.
  destruct (strict_eq_str event "pusher:ping"); [left; apply send_if_registered_state|].
  destruct (strict_eq_str event "pusher:subscribe").
  { unfold parse_or_throw. destruct (JSON_parse _) as [payload|]; [|by left].
    rewrite ret_bind. right. left. by exists payload. }
  destruct (strict_eq_str event "pusher:unsubscribe").
  { unfold parse_or_throw. destruct (JSON_parse _) as [payload|]; [|by left].
    rewrite ret_bind. destruct (prop payload "channel") as [c|e]; [|by left].
    simpl lift. rewrite ret_bind. right. right. by exists c. }
  destruct (truthy event); [|by left].
  destruct event; try by left.
  destruct (String.prefix "client-" s); [|by left].
  rewrite ret_bind. left. apply clientEvent_state.
Qed.

Lemma acceptWebSocket_run sid st :
  acceptWebSocket sid st = (Normal tt, accepted sid st, [(sid, connection_established sid)]).
Proof. unfold acceptWebSocket. by rewrite modify_bind. Qed.

Lemma consistent_accepted sid st :
  clients st !! sid = None -> consistent st -> consistent (accepted sid st).
Proof.
  intros Hfresh Hst s ch. unfold subscribers, accepted. simpl. fold (subscribers st ch).
  destruct (decide (sid = s)) as [->|Hne].
  - rewrite lookup_insert_eq, (Hst s ch), Hfresh. split.
    + by intros (? & ? & _).
    + intros (c & [= <-] & Hin). simpl in Hin. by apply not_elem_of_nil in Hin.
  - rewrite lookup_insert_ne by done. apply Hst.
Qed.

(** ** Invariants of every method *)

Lemma consistent_leaving : closed_under_leaving consistent.
Proof. split; [apply consistent_parted | apply consistent_forgotten]. Qed.

Lemma no_orphans_leaving : closed_under_leaving no_orphans.
Proof. split; [apply no_orphans_parted | done]. Qed.

Lemma nodup_sets_leaving : closed_under_leaving nodup_sets.
Proof. split; [apply nodup_sets_parted | done]. Qed.

Lemma subscribe_consistent sid payload st :
  consistent st -> consistent (state_of (subscribe sid payload st)).
Proof.
  intros Hst. destruct (subscribe_state sid payload st)
    as [->|(Hlive & ch & [->|(uid & uinfo & ->)])]; [done|by apply consistent_joined|].
  apply consistent_joined; [|by apply consistent_identified].
  unfold live, identified. simpl. destruct (decide (sid = sid)); [|done].
  rewrite lookup_alter_eq. by apply fmap_is_Some.
Qed.

Lemma subscribe_preserves (P : PusherDO -> Prop) sid payload st :
  (forall s ch st, P st -> P (joined s ch st)) ->
  (forall s ch uid uinfo st, P st -> P (identified s ch uid uinfo st)) ->
  P st -> P (state_of (subscribe sid payload st)).
Proof.
  intros Hj Hi Hst. destruct (subscribe_state sid payload st)
    as [->|(_ & ch & [->|(uid & uinfo & ->)])]; auto.
Qed.

Lemma onClose_consistent sid st :
  consistent st -> consistent (state_of (onClose sid st)).
Proof.
  intros Hst. destruct (clients st !! sid) as [c|] eqn:Hc.
  2:{ by rewrite onClose_unregistered. }
  rewrite (onClose_registered _ c) by done. cbv zeta.
  set (loop := for_of _ _ _).
  assert (Hloop : consistent (state_of loop))
    by (apply onClose_loop_preserves; [apply consistent_leaving | done]).
  apply consistent_removed; [done|].
  intros ch Hin. apply Hloop in Hin as (c1 & Hc1 & Hin).
  destruct (onClose_loop_client sid (Client.channels c) st c Hc) as (_ & c' & Hc' & _ & Hch).
  cbv zeta in Hc'. fold loop in Hc'. simplify_eq.
  destruct (Hch ch Hin) as [? ?]. done.
Qed.

Lemma onClose_preserves (P : PusherDO -> Prop) sid st :
  closed_under_leaving P -> (forall s st, P st -> P (removed s st)) ->
  P st -> P (state_of (onClose sid st)).
Proof.
  intros HP Hr Hst. destruct (clients st !! sid) as [c|] eqn:Hc.
  2:{ by rewrite onClose_unregistered. }
  rewrite (onClose_registered _ c) by done. cbv zeta.
  apply Hr. by apply onClose_loop_preserves.
Qed.

Lemma consistent_initial : consistent initial.
Proof.
  intros s ch. unfold subscribers. simpl. rewrite !lookup_empty. simpl. split.
  - by intros ?%not_elem_of_nil.
  - by intros (? & ? & _).
Qed.

(** C1. For every session and channel, the session is in the channel's
    subscriber set if and only if the channel is in the session's channel
    set: the equivalence holds in the state the constructor builds and,
    when it holds before subscribe, unsubscribe, client relay, broadcast
    or disconnect cleanup, it holds after it, whatever the arguments and
    however the method completes. *)
Theorem C1_membership_both_ways :
  consistent initial /\
  forall st,
    consistent st ->
    (forall sid payload, consistent (state_of (subscribe sid payload st))) /\
    (forall sid channel, consistent (state_of (unsubscribe sid channel st))) /\
    (forall sid channel event data,
       consistent (state_of (clientEvent sid channel event data st))) /\
    (forall body, consistent (state_of (broadcast body st))) /\
    (forall sid, consistent (state_of (onClose sid st))).
Proof.
  split; [apply consistent_initial|]. intros st Hst. split_and!.
  - intros. by apply subscribe_consistent.
  - intros. apply unsubscribe_preserves; [apply consistent_leaving | done].
  - intros. by rewrite clientEvent_state.
  - intros. by rewrite broadcast_state.
  - intros. by apply onClose_consistent.
Qed.

Lemma onMessage_preserves (P : PusherDO -> Prop) sid text st :
  (forall sid payload st, P st -> P (state_of (subscribe sid payload st))) ->
  (forall sid channel st, P st -> P (state_of (unsubscribe sid channel st))) ->
  P st -> P (state_of (onMessage sid text st)).
Proof.
  intros Hs Hu Hst.
  destruct (onMessage_state sid text st) as [->|[[payload ->]|[channel ->]]]; auto.
Qed.

Lemma no_orphans_subscribe sid payload st :
  no_orphans st -> no_orphans (state_of (subscribe sid payload st)).
Proof.
  apply subscribe_preserves; [apply no_orphans_joined | done].
Qed.

Lemma nodup_sets_subscribe sid payload st :
  nodup_sets st -> nodup_sets (state_of (subscribe sid payload st)).
Proof.
  apply subscribe_preserves; [apply nodup_sets_joined | done].
Qed.

Lemma reachable_consistent st : reachable st -> consistent st.
Proof.
  induction 1 as [|st sid _ IH Hfresh|st sid text _ IH|st body _ IH|st sid _ IH].
  - apply consistent_initial.
  - rewrite acceptWebSocket_run. by apply consistent_accepted.
  - apply onMessage_preserves; [apply subscribe_consistent | | done].
    intros. apply unsubscribe_preserves; [apply consistent_leaving | done].
  - by rewrite broadcast_state.
  - by apply onClose_consistent.
Qed.

Lemma reachable_no_orphans st : reachable st -> no_orphans st.
Proof.
  induction 1 as [|st sid _ IH Hfresh|st sid text _ IH|st body _ IH|st sid _ IH].
  - intros ch set. simpl. by rewrite lookup_empty.
  - by rewrite acceptWebSocket_run.
  - apply onMessage_preserves; [apply no_orphans_subscribe | | done].
    intros. apply unsubscribe_preserves; [apply no_orphans_leaving | done].
  - by rewrite broadcast_state.
  - apply onClose_preserves; [apply no_orphans_leaving | done..].
Qed.

Lemma reachable_nodup_sets st : reachable st -> nodup_sets st.
Proof.
  induction 1 as [|st sid _ IH Hfresh|st sid text _ IH|st body _ IH|st sid _ IH].
  - intros ch set. simpl. by rewrite lookup_empty.
  - by rewrite acceptWebSocket_run.
  - apply onMessage_preserves; [apply nodup_sets_subscribe | | done].
    intros. apply unsubscribe_preserves; [apply nodup_sets_leaving | done].
  - by rewrite broadcast_state.
  - apply onClose_preserves; [apply nodup_sets_leaving | done..].
Qed.

(** A publish that names only channels absent from the index sends
    nothing. *)
Lemma broadcast_absent props chans st :
  iterate (default VUndef (assoc "channels" props)) = Some chans ->
  (forall channel, channel ∈ chans -> channels_get st channel = None) ->
  broadcast (VObj props) st = (Normal tt, st, []).
Proof.
  intros Hit Habs. rewrite (broadcast_run _ chans) by done. do 2 f_equal.
  clear Hit. induction chans as [|channel chans IH]; [done|].
  cbn [fmap list_fmap concat]. rewrite IH by (intros; apply Habs; by right).
  unfold deliveries. rewrite Habs by by left. done.
Qed.

(** C6. Every channel present in the channel index has a non-empty
    subscriber set: this holds in every state the object reaches and is
    kept by every method; the unsubscribe of the last subscriber of a
    channel deletes the channel's entry, and a broadcast that then names
    the channel returns normally, changes nothing and sends nothing. *)
Theorem C6_no_orphan_channels :
  (forall st, reachable st -> no_orphans st) /\
  (forall st, no_orphans st ->
     (forall sid payload, no_orphans (state_of (subscribe sid payload st))) /\
     (forall sid channel, no_orphans (state_of (unsubscribe sid channel st))) /\
     (forall sid channel event data,
        no_orphans (state_of (clientEvent sid channel event data st))) /\
     (forall body, no_orphans (state_of (broadcast body st))) /\
     (forall sid, no_orphans (state_of (onClose sid st)))) /\
  (forall st sid c ch,
     clients st !! sid = Some c ->
     channels st !! ch = Some [sid] ->
     let st' := state_of (unsubscribe sid (VStr ch) st) in
     channels st' !! ch = None /\
     forall name data socket_id,
       broadcast (VObj [("name", name); ("data", data);
                        ("channels", VArr [VStr ch]); ("socket_id", socket_id)]) st'
       = (Normal tt, st', [])).
Proof.
  split_and!.
  - apply reachable_no_orphans.
  - intros st Hst. split_and!; intros.
    + by apply no_orphans_subscribe.
    + apply unsubscribe_preserves; [apply no_orphans_leaving | done].
    + by rewrite clientEvent_state.
    + by rewrite broadcast_state.
    + apply onClose_preserves; [apply no_orphans_leaving | done..].
  - intros st sid c ch Hc Hch st'.
    assert (Hgone : channels st' !! ch = None).
    { unfold st'. rewrite (unsubscribe_run _ c) by done.
      assert (Hp : channels (parted sid ch st) !! ch = None).
      { unfold parted. cbn [channels]. rewrite Hch. cbn [fmap option_fmap option_map].
        unfold Set_delete. rewrite filter_cons_False by prop_solver.
        rewrite filter_nil. simpl. apply lookup_delete_eq. }
      destruct (String.prefix "presence-" ch); [|done].
      by destruct (Client.user c). }
    split; [done|]. intros name data socket_id.
    apply (broadcast_absent _ [VStr ch]); [done|].
    intros channel ->%list_elem_of_singleton. done.
Qed.

Lemma subscribe_unregistered sid payload channel st :
  prop payload "channel" = Normal channel ->
  clients st !! sid = None ->
  subscribe sid payload st = (Normal tt, st, []).
Proof.
  intros Hch Hc. unfold subscribe. rewrite Hch. simpl lift.
  by rewrite ret_bind, get_bind, Hc.
Qed.

(** The channel of the request is read before the registry is
    consulted. *)
Lemma subscribe_null_payload sid st : subscribe sid VNull st = (Throw TypeError, st, []).
Proof. done. Qed.

(** C10 (amended). With a session id that is not in the session registry,
    subscribe, unsubscribe, client relay and disconnect cleanup send
    nothing and leave the registry, the channel index and the presence
    store as they were; unsubscribe, client relay and disconnect cleanup
    return normally, and so does subscribe unless its payload is [null] or
    [undefined]: the channel of the payload is read before the registry is
    consulted, and that read raises a TypeError. *)
Theorem C10_unknown_session_no_op st sid :
  clients st !! sid = None ->
  (forall payload,
     state_of (subscribe sid payload st) = st /\
     sent (subscribe sid payload st) = [] /\
     (completion (subscribe sid payload st) = Normal tt
      <-> payload <> VNull /\ payload <> VUndef)) /\
  (forall props, subscribe sid (VObj props) st = (Normal tt, st, [])) /\
  (forall channel, unsubscribe sid channel st = (Normal tt, st, [])) /\
  (forall channel event data,
     clientEvent sid channel event data st = (Normal tt, st, [])) /\
  onClose sid st = (Normal tt, st, []).
Proof.
  intros Hc. split_and!; intros.
  - destruct (prop payload "channel") as [channel|e] eqn:Hch.
    + rewrite (subscribe_unregistered _ _ channel) by done. split_and!; [done..|].
      split; [|done]. intros _. by destruct payload.
    + unfold subscribe. rewrite Hch. split_and!; [done..|].
      split; [done|]. intros [? ?]. by destruct payload.
  - by eapply subscribe_unregistered.
  - by apply unsubscribe_unregistered.
  - by apply clientEvent_unregistered.
  - by apply onClose_unregistered.
Qed.

(** ** Authorization of protected channels *)

(** A private channel whose credential verifies is joined. *)
Lemma subscribe_run_private st sid c props ch :
  clients st !! sid = Some c ->
  prop (VObj props) "channel" = Normal (VStr ch) ->
  String.prefix "private-" ch = true ->
  String.prefix "presence-" ch = false ->
  verifies sid ch (VObj props) = true ->
  subscribe sid (VObj props) st
  = (Normal tt, joined sid ch st,
     [(sid, subscription_succeeded_internal ch "{}"); (sid, subscription_succeeded ch)]).
Proof.
  intros Hc Hch Hpriv Hpres Hver.
  rewrite (subscribe_run_verified _ c _ ch) by (unfold protected; by rewrite ?Hpriv).
  rewrite Hpres, ret_bind. by apply subscribe_join_run_plain.
Qed.

Lemma hex_digit_lower d : is_lower_hex (hex_digit d) = true.
Proof.
  destruct d as [|p]; [reflexivity|].
  destruct p as [p|p|]; try reflexivity; destruct p as [p|p|]; try reflexivity;
    destruct p as [p|p|]; try reflexivity; destruct p as [p|p|]; reflexivity.
Qed.

Lemma all_chars_app P s1 s2 :
  all_chars P (s1 +:+ s2) = all_chars P s1 && all_chars P s2.
Proof. induction s1 as [|c s1 IH]; simpl; [done|]. by rewrite IH, andb_assoc. Qed.

Lemma length_app_string s1 s2 :
  String.length (s1 +:+ s2) = String.length s1 + String.length s2.
Proof. induction s1 as [|c s1 IH]; simpl; [done|]. by rewrite IH. Qed.

Lemma byte_hex b :
  all_chars is_lower_hex (padStart2 (toString16 b)) = true /\
  String.length (padStart2 (toString16 b)) = 2.
Proof.
  unfold toString16. destruct (b <? 16)%N; simpl; by rewrite !hex_digit_lower.
Qed.

(** The signature is written in lowercase hexadecimal, two digits a
    byte. *)
Lemma hex_lower bytes :
  all_chars is_lower_hex (hex bytes) = true /\
  String.length (hex bytes) = 2 * length bytes.
Proof.
  unfold hex. induction bytes as [|b bytes [IH1 IH2]]; [done|].
  destruct (byte_hex b) as [Hb1 Hb2].
  cbn [map String.concat]. destruct (map _ bytes) as [|x l] eqn:Hm.
  - destruct bytes; [|done]. simpl length. by rewrite Hb1, Hb2.
  - rewrite !all_chars_app, !length_app_string, Hb1, Hb2, IH1, IH2. simpl. split; [done|lia].
Qed.

Lemma all_chars_impl (P Q : ascii -> bool) s :
  (forall c, P c = true -> Q c = true) -> all_chars P s = true -> all_chars Q s = true.
Proof.
  intros HPQ. induction s as [|c s IH]; simpl; [done|].
  intros [Hc Hs]%andb_true_iff. by rewrite (HPQ c Hc), IH.
Qed.

Lemma split_colon_free s : colon_free s = true -> split ":" s = [s].
Proof.
  induction s as [|c s IH]; [done|].
  intros [Hc Hs]%andb_true_iff. apply negb_true_iff in Hc.
  cbn [split]. by rewrite Hc, (IH Hs).
Qed.

Lemma split_key_signature k h :
  colon_free k = true -> colon_free h = true -> split ":" (k +:+ ":" +:+ h) = [k; h].
Proof.
  intros Hk Hh. induction k as [|c k IH].
  - change (split ":" ("" +:+ ":" +:+ h)) with ("" :: split ":" h).
    by rewrite (split_colon_free h Hh).
  - simpl in Hk. apply andb_true_iff in Hk as [Hc Hk]. apply negb_true_iff in Hc.
    change (split ":" (String c k +:+ ":" +:+ h))
      with (if Ascii.eqb c ":" then "" :: split ":" (k +:+ ":" +:+ h)
            else match split ":" (k +:+ ":" +:+ h) with
                 | h0 :: t => String c h0 :: t
                 | [] => [String c EmptyString]
                 end).
    by rewrite Hc, (IH Hk).
Qed.

Lemma hmac_colon_free secret msg : colon_free (hmac secret msg) = true.
Proof.
  unfold colon_free, hmac. eapply all_chars_impl; [|apply hex_lower].
  intros c Hc. apply negb_true_iff. destruct (Ascii.eqb c ":") eqn:Heq; [|done].
  apply Ascii.eqb_eq in Heq. by subst.
Qed.


Lemma assoc_obj_set k v o : assoc k (obj_set k v o) = Some v.
Proof.
  induction o as [|[k' v'] o IH]; simpl.
  - by rewrite String.eqb_refl.
  - destruct (String.eqb k' k) eqn:Hk; simpl; by rewrite Hk.
Qed.



Lemma live_identified sid ch uid uinfo st s :
  live (identified sid ch uid uinfo st) s <-> live st s.
Proof.
  unfold live, identified. simpl. destruct (decide (sid = s)) as [->|Hne].
  - rewrite lookup_alter_eq. by rewrite fmap_is_Some.
  - by rewrite lookup_alter_ne.
Qed.

(** A presence subscribe that passes the credential check and carries an
    identity: the identity and the presence entry are written, the session
    is registered in both tables, the snapshot goes to the subscriber and
    member-added to the other sessions of the channel. *)
Lemma subscribe_run_presence st sid c props ch v user_id user_info :
  clients st !! sid = Some c ->
  prop (VObj props) "channel" = Normal (VStr ch) ->
  String.prefix "presence-" ch = true ->
  verifies sid ch (VObj props) = true ->
  JSON_parse (ToString (default VUndef (assoc "channel_data" props))) = Some v ->
  prop v "user_id" = Normal user_id ->
  prop v "user_info" = Normal user_info ->
  let members := Map_set user_id user_info (default [] (presence st !! ch)) in
  subscribe sid (VObj props) st
  = (Normal tt, joined sid ch (identified sid ch user_id user_info st),
     (sid, subscription_succeeded_internal ch (JSON_stringify (snapshot members)))
     :: (sid, subscription_succeeded_presence ch (VNum (Z.of_nat (length (Map_keys members)))))
     :: ((fun s => (s, member_added ch (User.mk user_id user_info)))
           <$> filter (fun s => s <> sid /\ live st s) (subscribers st ch))).
Proof.
  intros Hc Hch Hpres Hver Hv Hid Hinfo members.
  rewrite (subscribe_run_verified _ c _ ch)
    by (unfold protected; rewrite ?Hpres, ?orb_true_r; done).
  rewrite Hpres.
  erewrite bind_normal by (by eapply subscribe_presence_run).
  set (st1 := identified sid ch user_id user_info st).
  assert (Hc1 : clients st1 !! sid
                = Some (Client.mk (Client.channels c) (Some (User.mk user_id user_info))))
    by (unfold st1, identified; simpl; by rewrite lookup_alter_eq, Hc).
  assert (Hm : default [] (presence st1 !! ch) = members)
    by (unfold st1, identified; simpl; by rewrite lookup_insert_eq).
  rewrite (subscribe_join_run_presence _ _ _ _ _ Hpres Hc1). cbv zeta. rewrite Hm.
  unfold completion, state_of, sent. cbn [fst snd app].
  do 4 f_equal. apply list_filter_iff. intros s.
  unfold st1. by rewrite live_identified.
Qed.

Lemma subscribers_identified sid ch uid uinfo st ch' :
  subscribers (identified sid ch uid uinfo st) ch' = subscribers st ch'.
Proof. done. Qed.

Lemma split_head_colon_free s : forall h t,
  split ":" s = h :: t -> colon_free h = true.
Proof.
  induction s as [|c s IH]; intros h t Hs; cbn [split] in Hs.
  - by injection Hs as <- _.
  - destruct (Ascii.eqb c ":") eqn:Hc; [by injection Hs as <- _|].
    destruct (split ":" s) as [|h' t'] eqn:Hs'.
    + injection Hs as <- _. unfold colon_free. cbn [all_chars]. by rewrite Hc.
    + injection Hs as <- _. unfold colon_free. cbn [all_chars]. rewrite Hc.
      exact (IH h' t' eq_refl).
Qed.





(** ** Presence *)

Lemma SameValueZero_eq a b : SameValueZero a b = true -> a = b.
Proof.
  destruct a, b; simpl; try done.
  - intros H. apply Bool.eqb_prop in H. by subst.
  - intros H%Z.eqb_eq. by subst.
  - intros H%String.eqb_eq. by subst.
Qed.

Lemma SameValueZero_refl k : primitive k = true -> SameValueZero k k = true.
Proof.
  destruct k as [| |b|n|s| | |]; try done; intros _; cbn.
  - by destruct b.
  - apply Z.eqb_refl.
  - apply String.eqb_refl.
Qed.

Lemma Map_set_key k v m : k ∈ Map_keys (Map_set k v m).
Proof.
  induction m as [|[k' v'] m IH]; simpl.
  - apply list_elem_of_here.
  - destruct (SameValueZero k' k) eqn:Hk; simpl.
    + apply SameValueZero_eq in Hk. subst. apply list_elem_of_here.
    + by apply list_elem_of_further.
Qed.

Lemma Map_set_keeps k v m k0 : k0 ∈ Map_keys m -> k0 ∈ Map_keys (Map_set k v m).
Proof.
  induction m as [|[k' v'] m IH]; simpl.
  - by intros ?%not_elem_of_nil.
  - destruct (SameValueZero k' k); simpl; [done|].
    rewrite !elem_of_cons. prop_solver.
Qed.

Lemma Map_delete_keeps k m k0 :
  k0 ∈ Map_keys m -> SameValueZero k0 k = false -> k0 ∈ Map_keys (Map_delete k m).
Proof.
  intros Hin Hne. unfold Map_keys, Map_delete in *.
  apply list_elem_of_fmap in Hin as ([k1 v1] & -> & Hin).
  apply list_elem_of_fmap. exists (k1, v1). split; [done|].
  apply list_elem_of_filter. simpl in *. by rewrite Hne.
Qed.

Lemma Map_delete_gone k m :
  primitive k = true -> k ∉ Map_keys (Map_delete k m).
Proof.
  intros Hp Hin. unfold Map_keys, Map_delete in Hin.
  apply list_elem_of_fmap in Hin as ([k1 v1] & -> & Hin).
  apply list_elem_of_filter in Hin as [Hne _]. simpl in *.
  destruct k1; simpl in *; try done.
  - by rewrite Bool.eqb_reflx in Hne.
  - by rewrite Z.eqb_refl in Hne.
  - by rewrite String.eqb_refl in Hne.
Qed.

Lemma filter_ext_in {A} (P1 P2 : A -> Prop)
    `{!forall x, Decision (P1 x), !forall x, Decision (P2 x)} (l : list A) :
  (forall x, x ∈ l -> P1 x <-> P2 x) -> filter P1 l = filter P2 l.
Proof.
  induction l as [|a l IH]; intros Hext; [done|].
  rewrite !filter_cons, IH by (intros; apply Hext; by right).
  apply decide_ext, Hext. by left.
Qed.

(** In a consistent state every subscriber is in the registry. *)
Lemma consistent_live st ch s : consistent st -> s ∈ subscribers st ch -> live st s.
Proof. intros Hst Hin. apply Hst in Hin as (c & Hc & _). by eexists. Qed.

Lemma filter_live (P : string -> Prop) `{!forall x, Decision (P x)} st ch :
  consistent st ->
  filter (fun s => P s /\ live st s) (subscribers st ch) = filter P (subscribers st ch).
Proof.
  intros Hst. apply filter_ext_in. intros s Hin.
  pose proof (consistent_live st ch s Hst Hin). prop_solver.
Qed.

Lemma assoc_obj_set_keeps k v o k0 :
  is_Some (assoc k0 o) -> is_Some (assoc k0 (obj_set k v o)).
Proof.
  induction o as [|[k' v'] o IH]; simpl; [by intros [? ?]|].
  destruct (String.eqb k' k) eqn:Hk; simpl.
  - destruct (String.eqb k' k0); [by eauto | done].
  - destruct (String.eqb k' k0); [by eauto | done].
Qed.

Lemma fromEntries_keeps (m : list (Value * Value)) : forall o k0,
  is_Some (assoc k0 o) ->
  is_Some (assoc k0 (fold_left (fun o e => obj_set (ToString (fst e)) (snd e) o) m o)).
Proof.
  induction m as [|e m IH]; intros o k0 Hk; [done|].
  simpl. apply IH. by apply assoc_obj_set_keeps.
Qed.

(** Every key of the member map is a property of the [hash] object. *)
Lemma fromEntries_key (m : list (Value * Value)) k props :
  k ∈ Map_keys m -> Object_fromEntries m = VObj props ->
  is_Some (assoc (ToString k) props).
Proof.
  unfold Object_fromEntries. intros Hin [= <-]. revert Hin. generalize (@nil (string * Value)).
  induction m as [|[k' v'] m IH]; intros o Hin; [by apply not_elem_of_nil in Hin|].
  simpl in Hin. apply elem_of_cons in Hin as [->|Hin].
  - simpl. apply fromEntries_keeps. rewrite assoc_obj_set. by eexists.
  - simpl. by apply IH.
Qed.










(** ** Client relay and publish *)




Lemma strict_eq_str_true v s : strict_eq_str v s = true <-> v = VStr s.
Proof.
  destruct v; simpl; try (split; [done | by intros [=]]).
  rewrite String.eqb_eq. split; [by intros -> | by intros [= ->]].
Qed.

Lemma deliveries_consistent st name data socket_id channel :
  consistent st ->
  deliveries st name data socket_id channel
  = match channel with
    | VStr ch => (fun s => (s, published name channel data)) <$> recipients st socket_id ch
    | _ => []
    end.
Proof.
  intros Hst. unfold deliveries, recipients, channels_get.
  destruct channel as [| | | |ch| | |]; try done.
  rewrite <- (filter_live (fun s => strict_eq_str socket_id s = false)) by done.
  unfold subscribers. by destruct (channels st !! ch).
Qed.

(** C8. A publish with name, data, a list of channels and an optional
    excluded session id returns, changes nothing and, for each channel of
    the list in turn, delivers the frame with the name, that channel and
    the data exactly once to every current subscriber of the channel but
    the one whose session id is the excluded id, which receives nothing;
    with no excluded id every subscriber of each listed channel receives
    the frame. *)
Theorem C8_publish_fan_out st props chans :
  consistent st ->
  nodup_sets st ->
  prop (VObj props) "channels" = Normal (VArr chans) ->
  let name := default VUndef (assoc "name" props) in
  let data := default VUndef (assoc "data" props) in
  let socket_id := default VUndef (assoc "socket_id" props) in
  let r := broadcast (VObj props) st in
  let part channel :=
    match channel with
    | VStr ch =>
        (fun s => (s, VObj [("event", name); ("channel", channel); ("data", data)]))
          <$> recipients st socket_id ch
    | _ => []
    end in
  completion r = Normal tt /\
  state_of r = st /\
  sent r = concat (part <$> chans) /\
  (forall ch,
     NoDup (recipients st socket_id ch) /\
     forall s, s ∈ recipients st socket_id ch
               <-> s ∈ subscribers st ch /\ socket_id <> VStr s) /\
  (forall x f, socket_id = VStr x -> (x, f) ∉ sent r) /\
  (socket_id = VUndef -> forall ch, recipients st socket_id ch = subscribers st ch).
Proof.
  intros Hst Hnd Hch name data socket_id r part.
  assert (Hit : iterate (default VUndef (assoc "channels" props)) = Some chans).
  { simpl in Hch. injection Hch as ->. done. }
  assert (Hr : r = _) by (by eapply broadcast_run). fold name data socket_id in Hr.
  assert (Hparts : deliveries st name data socket_id <$> chans = part <$> chans).
  { apply list_fmap_ext. intros _ channel _. by apply deliveries_consistent. }
  rewrite Hparts in Hr.
  assert (Hrec : forall ch s, s ∈ recipients st socket_id ch
                              <-> s ∈ subscribers st ch /\ socket_id <> VStr s).
  { intros ch s. unfold recipients. rewrite list_elem_of_filter.
    rewrite <- strict_eq_str_true, not_true_iff_false. prop_solver. }
  rewrite Hr. split_and!; [done..| | |].
  - intros ch. split; [|apply Hrec]. apply NoDup_filter. unfold subscribers.
    destruct (channels st !! ch) as [set|] eqn:Hset; simpl; [by eapply Hnd | apply NoDup_nil_2].
  - intros x f Hx. unfold sent. cbn [snd]. intros Hin.
    apply list_elem_of_In, in_concat in Hin as (l & Hl & Hin).
    apply list_elem_of_In in Hl, Hin.
    apply list_elem_of_fmap in Hl as (channel & -> & _).
    unfold part in Hin. destruct channel as [| | | |ch| | |];
      try (by apply not_elem_of_nil in Hin).
    apply list_elem_of_fmap in Hin as (s & [= <- _] & Hs). apply Hrec in Hs. prop_solver.
  - intros Hu ch. unfold recipients. rewrite Hu. simpl.
    rewrite (filter_ext_in _ (fun _ => True)) by done.
    induction (subscribers st ch) as [|s l IH]; [done|].
    by rewrite filter_cons_True, IH.
Qed.

(** ** One identity per session *)

Lemma subscribe_presence_client st sid c props ch v user_id user_info :
  clients st !! sid = Some c ->
  prop (VObj props) "channel" = Normal (VStr ch) ->
  String.prefix "presence-" ch = true ->
  verifies sid ch (VObj props) = true ->
  JSON_parse (ToString (default VUndef (assoc "channel_data" props))) = Some v ->
  prop v "user_id" = Normal user_id ->
  prop v "user_info" = Normal user_info ->
  let st' := state_of (subscribe sid (VObj props) st) in
  clients st' !! sid
  = Some (Client.mk (Set_add ch (Client.channels c)) (Some (User.mk user_id user_info))) /\
  presence st' !! ch
  = Some (Map_set user_id user_info (default [] (presence st !! ch))) /\
  (forall ch', ch' <> ch -> presence st' !! ch' = presence st !! ch').
Proof.
  intros Hc Hch Hpres Hver Hv Hid Hinfo st'.
  assert (Hst' : st' = joined sid ch (identified sid ch user_id user_info st)).
  { unfold st'. by erewrite subscribe_run_presence. }
  rewrite Hst'. unfold joined, identified. simpl. split_and!.
  - by rewrite !lookup_alter_eq, Hc.
  - by rewrite lookup_insert_eq.
  - intros ch' Hne. by rewrite lookup_insert_ne.
Qed.

(** C9. The identity of a session is one field that each successful
    presence subscription overwrites: after joining presence channel [P1]
    as [u1] and then presence channel [P2] as [u2], the session's identity
    is [u2]; its unsubscribe from [P1] then removes from the presence entry
    of [P1] the key [u2], leaves the key [u1] there, and announces
    member-removed on [P1] with user id [u2]: the event goes once to each
    session that was a subscriber of [P1] before the session joined,
    the session itself excepted, in the order of the subscriber set,
    and nothing else is sent.  The ids are distinct and [u2] is a
    primitive value. *)
Theorem C9_identity_is_overwritten st sid c props1 props2 P1 P2 v1 v2 u1 i1 u2 i2 :
  clients st !! sid = Some c ->
  consistent st ->
  prop (VObj props1) "channel" = Normal (VStr P1) ->
  String.prefix "presence-" P1 = true ->
  verifies sid P1 (VObj props1) = true ->
  JSON_parse (ToString (default VUndef (assoc "channel_data" props1))) = Some v1 ->
  prop v1 "user_id" = Normal u1 -> prop v1 "user_info" = Normal i1 ->
  prop (VObj props2) "channel" = Normal (VStr P2) ->
  String.prefix "presence-" P2 = true ->
  verifies sid P2 (VObj props2) = true ->
  JSON_parse (ToString (default VUndef (assoc "channel_data" props2))) = Some v2 ->
  prop v2 "user_id" = Normal u2 -> prop v2 "user_info" = Normal i2 ->
  SameValueZero u1 u2 = false ->
  primitive u2 = true ->
  let st1 := state_of (subscribe sid (VObj props1) st) in
  let st2 := state_of (subscribe sid (VObj props2) st1) in
  let r := unsubscribe sid (VStr P1) st2 in
  (Client.user <$> clients st1 !! sid) = Some (Some (User.mk u1 i1)) /\
  (Client.user <$> clients st2 !! sid) = Some (Some (User.mk u2 i2)) /\
  u1 ∈ Map_keys (default [] (presence st2 !! P1)) /\
  presence (state_of r) !! P1 = Map_delete u2 <$> presence st2 !! P1 /\
  u1 ∈ Map_keys (default [] (presence (state_of r) !! P1)) /\
  (u2 ∉ Map_keys (default [] (presence (state_of r) !! P1))) /\
  sent r
  = (fun s => (s, VObj [("event", VStr "pusher_internal:member_removed");
                        ("channel", VStr P1);
                        ("data", VStr (JSON_stringify (VObj [("user_id", u2)])))]))
      <$> Set_delete sid (subscribers st2 P1) /\
  sent r
  = (fun s => (s, VObj [("event", VStr "pusher_internal:member_removed");
                        ("channel", VStr P1);
                        ("data", VStr (JSON_stringify (VObj [("user_id", u2)])))]))
      <$> filter (fun s => s <> sid) (subscribers st P1) /\
  (forall s f,
     (s, f) ∈ sent r <->
     s ∈ subscribers st P1 /\ s <> sid /\
     f = VObj [("event", VStr "pusher_internal:member_removed");
               ("channel", VStr P1);
               ("data", VStr (JSON_stringify (VObj [("user_id", u2)])))]) /\
  (forall f, (sid, f) ∉ sent r).
Proof.
  intros Hc Hst Hch1 Hp1 Hver1 Hv1 Hid1 Hinfo1 Hch2 Hp2 Hver2 Hv2 Hid2 Hinfo2 Hne Hprim
    st1 st2 r.
  destruct (subscribe_presence_client st sid c props1 P1 v1 u1 i1) as (Hc1 & Hpr1 & _);
    [done..|]. fold st1 in Hc1, Hpr1.
  destruct (subscribe_presence_client st1 sid _ props2 P2 v2 u2 i2 Hc1) as (Hc2 & Hpr2 & Hoth2);
    [done..|]. fold st2 in Hc2, Hpr2, Hoth2.
  assert (Hst2 : consistent st2) by (do 2 apply subscribe_consistent; done).
  assert (Hu1 : exists m, presence st2 !! P1 = Some m /\ u1 ∈ Map_keys m).
  { destruct (decide (P1 = P2)) as [<-|HP].
    - rewrite Hpr2, Hpr1. eexists. split; [done|]. simpl. apply Map_set_keeps, Map_set_key.
    - rewrite Hoth2, Hpr1 by done. eexists. split; [done|]. apply Map_set_key. }
  destruct Hu1 as (m & Hm & Hin).
  assert (Hr : r = _) by (by eapply unsubscribe_run). rewrite Hp1 in Hr. simpl in Hr.
  assert (Hpres : presence (state_of r) !! P1 = Map_delete u2 <$> presence st2 !! P1).
  { rewrite Hr. unfold state_of, forgotten, parted. simpl. by rewrite lookup_alter_eq. }
  assert (Hsent2 : sent r
            = (fun s => (s, member_removed P1 (User.mk u2 i2)))
                <$> Set_delete sid (subscribers st2 P1)).
  { rewrite Hr. unfold sent. cbn [snd]. f_equal.
    unfold Set_delete. rewrite list_filter_filter.
    apply filter_ext_in. intros s Hs. pose proof (consistent_live st2 P1 s Hst2 Hs).
    prop_solver. }
  assert (Hsubs : subscribers st2 P1 = Set_add sid (subscribers st P1)).
  { assert (H1 : subscribers st1 P1 = Set_add sid (subscribers st P1)).
    { unfold st1. erewrite subscribe_run_presence by done.
      unfold state_of. cbn [fst snd].
      by rewrite subscribers_joined, decide_True, subscribers_identified. }
    unfold st2. erewrite subscribe_run_presence by done.
    unfold state_of at 1. cbn [fst snd].
    rewrite subscribers_joined, subscribers_identified. fold st1.
    case_decide; [|done]. rewrite H1. apply Set_add_present, elem_of_Set_add. by left. }
  assert (Hsent : sent r
            = (fun s => (s, member_removed P1 (User.mk u2 i2)))
                <$> filter (fun s => s <> sid) (subscribers st P1)).
  { rewrite Hsent2, Hsubs. f_equal.
    destruct (decide (sid ∈ subscribers st P1)) as [Hin'|Hin'].
    - by rewrite Set_add_present.
    - rewrite Set_delete_Set_add by done. symmetry. by apply Set_delete_fresh. }
  rewrite Hpres, Hm. simpl. split_and!.
  - by rewrite Hc1.
  - by rewrite Hc2.
  - done.
  - done.
  - by apply Map_delete_keeps.
  - by apply Map_delete_gone.
  - exact Hsent2.
  - exact Hsent.
  - intros s f. rewrite Hsent, list_elem_of_fmap. split.
    + intros (s' & [= -> ->] & Hin'). apply list_elem_of_filter in Hin' as [? ?]. done.
    + intros (Hin' & Hs & ->). exists s. split; [done|]. by apply list_elem_of_filter.
  - intros f Hin'. rewrite Hsent in Hin'.
    apply list_elem_of_fmap in Hin' as (s' & [= <- _] & Hin').
    apply list_elem_of_filter in Hin' as [Hs _]. by apply Hs.
Qed.

(** ** Malformed frames *)

Lemma completion_bind {A B} (m : M A) (k : A -> M B) st :
  completion (bind m k st) =
  match completion (m st) with
  | Normal a => completion (k a (state_of (m st)))
  | Throw e => Throw e
  end.
Proof.
  unfold bind, completion, state_of.
  destruct (m st) as [[[a|e] s] o]; simpl; [|reflexivity].
  destruct (k a s) as [[r s'] o']; reflexivity.
Qed.









Lemma onMessage_subscribe sid text st msg d :
  JSON_parse text = Some msg ->
  prop msg "event" = Normal (VStr "pusher:subscribe") ->
  prop msg "data" = Normal d ->
  onMessage sid text st
  = match JSON_parse (data_text d) with
    | Some payload => subscribe sid payload st
    | None => (Throw SyntaxError, st, [])
    end.
Proof.
  intros Hmsg He Hd. unfold onMessage. rewrite Hmsg, He, Hd. simpl lift.
  rewrite !ret_bind. simpl. unfold parse_or_throw. fold (data_text d).
  destruct (JSON_parse (data_text d)); [by rewrite ret_bind | done].
Qed.

Lemma onMessage_unsubscribe sid text st msg d :
  JSON_parse text = Some msg ->
  prop msg "event" = Normal (VStr "pusher:unsubscribe") ->
  prop msg "data" = Normal d ->
  onMessage sid text st
  = match JSON_parse (data_text d) with
    | Some payload => (channel <- lift (prop payload "channel") ;; unsubscribe sid channel) st
    | None => (Throw SyntaxError, st, [])
    end.
Proof.
  intros Hmsg He Hd. unfold onMessage. rewrite Hmsg, He, Hd. simpl lift.
  rewrite !ret_bind. simpl. unfold parse_or_throw. fold (data_text d).
  destruct (JSON_parse (data_text d)); [by rewrite ret_bind | done].
Qed.




Lemma prop_VStr_object payload k s :
  prop payload k = Normal (VStr s) -> exists props, payload = VObj props.
Proof. destruct payload; simpl; intros; try done. by eexists. Qed.


(** ** Further properties of the methods *)

(** *** Inbound frames *)

(** X1. A frame whose event is [pusher:ping] is answered with exactly one
    [pusher:pong] event, sent to the session the frame came from, whatever
    else the frame holds; nothing is sent when that session is not in the
    registry, and the state is unchanged in both cases. *)
Theorem X1_ping_is_answered_with_pong st sid text msg :
  JSON_parse text = Some msg ->
  prop msg "event" = Normal (VStr "pusher:ping") ->
  onMessage sid text st
  = (Normal tt, st,
     match clients st !! sid with
     | Some _ => [(sid, VObj [("event", VStr "pusher:pong"); ("data", VStr "{}")])]
     | None => []
     end).
Proof.
  intros Hp He. destruct (prop_VStr_object _ _ _ He) as [props ->].
  unfold onMessage. rewrite Hp, He. simpl lift. rewrite !ret_bind.
  change (strict_eq_str (VStr "pusher:ping") "pusher:ping") with true. cbv iota.
  unfold send_if_registered. rewrite get_bind.
  destruct (clients st !! sid); [|done].
  by rewrite ret_bind.
Qed.

Lemma strict_eq_str_false v s : v <> VStr s -> strict_eq_str v s = false.
Proof.
  intros Hne. destruct (strict_eq_str v s) eqn:H; [|done].
  by apply strict_eq_str_true in H.
Qed.

(** X2. A frame whose event is none of [pusher:ping], [pusher:subscribe]
    and [pusher:unsubscribe] and does not start with [client-] changes
    nothing and is answered with nothing.  It is dropped without an
    exception when the event is a string or is falsy (absent, [null],
    [false], [0]); any other event value raises a TypeError. *)
Theorem X2_other_events_are_ignored st sid text msg event :
  JSON_parse text = Some msg ->
  prop msg "event" = Normal event ->
  event <> VStr "pusher:ping" ->
  event <> VStr "pusher:subscribe" ->
  event <> VStr "pusher:unsubscribe" ->
  (forall e, event = VStr e -> String.prefix "client-" e = false) ->
  onMessage sid text st
  = (match event with
     | VStr _ => Normal tt
     | _ => if truthy event then Throw TypeError else Normal tt
     end, st, []).
Proof.
  intros Hp He H1 H2 H3 Hc.
  destruct (prop_total _ _ "data" _ He) as [d Hd].
  unfold onMessage. rewrite Hp, He, Hd. simpl lift. rewrite !ret_bind.
  rewrite !strict_eq_str_false by done.
  destruct event as [| |b|n|e| | |]; simpl; try done.
  - by destruct b.
  - by destruct (n =? 0)%Z.
  - rewrite (Hc e eq_refl). by destruct (negb _).
Qed.

Lemma subscribe_unregistered_quiet sid payload st :
  clients st !! sid = None ->
  state_of (subscribe sid payload st) = st /\ sent (subscribe sid payload st) = [].
Proof.
  intros Hc. destruct (prop payload "channel") as [channel|e] eqn:Hch.
  - by rewrite (subscribe_unregistered _ _ channel).
  - unfold subscribe. by rewrite Hch.
Qed.

(** X3. A frame that arrives on a socket whose session is not in the
    registry changes no table and makes the server send nothing to anyone,
    whatever its text, also when handling it raises an exception. *)
Theorem X3_frames_of_an_unregistered_socket st sid text :
  clients st !! sid = None ->
  state_of (onMessage sid text st) = st /\ sent (onMessage sid text st) = [].
Proof.
  intros Hc. unfold onMessage.
  destruct (JSON_parse text) as [msg|]; [|done].
  destruct (prop msg "event") as [event|]; [|done].
  destruct (prop msg "data") as [d|]; [|done].
  simpl lift. rewrite !ret_bind.
  destruct (strict_eq_str event "pusher:ping").
  { unfold send_if_registered. by rewrite get_bind, Hc. }
  destruct (strict_eq_str event "pusher:subscribe").
  { unfold parse_or_throw. destruct (JSON_parse _) as [payload|]; [|done].
    rewrite ret_bind. by apply subscribe_unregistered_quiet. }
  destruct (strict_eq_str event "pusher:unsubscribe").
  { unfold parse_or_throw. destruct (JSON_parse _) as [payload|]; [|done].
    rewrite ret_bind. destruct (prop payload "channel") as [channel|]; [|done].
    simpl lift. rewrite ret_bind. by rewrite unsubscribe_unregistered. }
  destruct (truthy event); [|done].
  destruct event as [| | | |e| | |]; try done.
  destruct (String.prefix "client-" e); [|done].
  destruct (prop msg "channel") as [channel|]; [|done].
  simpl lift. rewrite ret_bind. by rewrite clientEvent_unregistered.
Qed.

(** *** Connections *)

(** X4. Accepting a connection registers the socket id with no channel
    and no identity, greets that session with one
    [pusher:connection_established] event that carries the id and the
    activity timeout 120, and touches no other registry entry, nor the
    channel index, nor the presence store.  The membership invariant
    survives exactly when the id is not that of a session that still has a
    subscription: such an id would be registered afresh while it stays in
    the subscriber sets. *)
Theorem X4_accept_registers_a_session st sid :
  let r := acceptWebSocket sid st in
  completion r = Normal tt /\
  sent r = [(sid, VObj [("event", VStr "pusher:connection_established");
                        ("data", VStr (JSON_stringify
                           (VObj [("socket_id", VStr sid);
                                  ("activity_timeout", VNum 120)])))])] /\
  clients (state_of r) !! sid = Some (Client.mk [] None) /\
  (forall s, s <> sid -> clients (state_of r) !! s = clients st !! s) /\
  channels (state_of r) = channels st /\
  presence (state_of r) = presence st /\
  (consistent st -> (consistent (state_of r) <-> forall ch, sid ∉ subscribers st ch)).
Proof.
  intros r. subst r. rewrite acceptWebSocket_run.
  unfold completion, state_of, sent, accepted. cbn [fst snd clients channels presence].
  split_and!; try done.
  - apply lookup_insert_eq.
  - intros s Hs. by apply lookup_insert_ne.
  - intros Hst. split.
    + intros Hacc ch Hin. apply Hacc in Hin as (c & Hc & Hch).
      cbn [clients] in Hc. rewrite lookup_insert_eq in Hc. simplify_eq.
      cbn in Hch. by apply not_elem_of_nil in Hch.
    + intros Hfree s ch. unfold subscribers. cbn [clients channels].
      destruct (decide (s = sid)) as [->|Hne].
      * rewrite lookup_insert_eq. split.
        -- intros Hin. by destruct (Hfree ch).
        -- intros (c & Hc & Hch). simplify_eq. cbn in Hch.
           by apply not_elem_of_nil in Hch.
      * rewrite lookup_insert_ne by done. apply Hst.
Qed.

Lemma pretty_N_go_dot_free x : forall s,
  dot_free s = true -> dot_free (pretty_N_go x s) = true.
Proof.
  induction (N.lt_wf_0 x) as [x _ IH]. intros s Hs.
  assert (x = 0 \/ 0 < x)%N as [->|Hpos] by lia.
  - by rewrite pretty_N_go_0.
  - rewrite pretty_N_go_step by done. apply IH.
    + by apply N.div_lt.
    + unfold dot_free in *. cbn [all_chars]. rewrite Hs, andb_true_r.
      unfold pretty_N_char. by repeat case_match.
Qed.

Lemma pretty_Z_dot_free (n : Z) : dot_free (pretty n) = true.
Proof.
  assert (HN : forall x : N, dot_free (pretty x) = true).
  { intros x. unfold pretty, pretty_N. case_decide; [done|].
    by apply pretty_N_go_dot_free. }
  destruct n as [|p|p]; [done|apply (HN (Npos p))|].
  unfold pretty, pretty_Z, dot_free. cbn [all_chars String.append].
  apply (HN (Npos p)).
Qed.

Lemma dot_free_prefix a : forall b s t,
  dot_free a = true -> dot_free b = true ->
  a +:+ "." +:+ s = b +:+ "." +:+ t -> a = b /\ s = t.
Proof.
  unfold dot_free.
  induction a as [|c a IH]; intros [|d b] s t Ha Hb Heq; cbn in *.
  - by simplify_eq.
  - by simplify_eq.
  - by simplify_eq.
  - injection Heq as -> Heq.
    apply andb_true_iff in Ha as [_ Ha]. apply andb_true_iff in Hb as [_ Hb].
    destruct (IH b s t Ha Hb Heq) as [-> ->]. done.
Qed.

(** X5. The socket id formed from the clock reading and the random
    integer determines both: two connections get the same id only when
    they are accepted at the same reading of the clock with the same
    random integer. *)
Theorem X5_socket_id_determines_its_parts now1 random1 now2 random2 :
  socketId_at now1 random1 = socketId_at now2 random2 <->
  now1 = now2 /\ random1 = random2.
Proof.
  split; [|by intros [-> ->]].
  unfold socketId_at. cbn [ToString]. intros Heq.
  apply dot_free_prefix in Heq as [H1 H2]; [|apply pretty_Z_dot_free..].
  split; by apply (inj pretty).
Qed.

(** *** The HTTP entry points *)

Lemma endsWith_app a suffix : endsWith (a +:+ suffix) suffix = true.
Proof.
  induction a as [|c a IH].
  - change ("" +:+ suffix) with suffix. destruct suffix as [|c suffix]; [done|].
    cbn [endsWith]. by rewrite String.eqb_refl.
  - change (String c a +:+ suffix) with (String c (a +:+ suffix)).
    cbn [endsWith]. rewrite IH. apply orb_true_r.
Qed.

Lemma handleWebSocket_run now random st :
  handleWebSocket now random st
  = (Normal (Response.mk 101 None None (Some (socketId_at now random))),
     accepted (socketId_at now random) st,
     [(socketId_at now random, connection_established (socketId_at now random))]).
Proof.
  unfold handleWebSocket. cbv zeta.
  by rewrite (bind_normal _ _ _ _ _ _ (acceptWebSocket_run _ _)).
Qed.

(** [broadcast] raises before its first send or not at all. *)
Lemma broadcast_throw body st e :
  completion (broadcast body st) = Throw e ->
  broadcast body st = (Throw TypeError, st, []).
Proof.
  unfold broadcast.
  destruct (prop body "name") as [name|e1] eqn:H1.
  2:{ destruct body; by simplify_eq/=. }
  destruct (prop_total _ _ "data" _ H1) as [data ->].
  destruct (prop_total _ _ "channels" _ H1) as [chans ->].
  destruct (prop_total _ _ "socket_id" _ H1) as [socket_id ->].
  simpl lift. rewrite !ret_bind.
  destruct (iterate chans) as [l|]; [|done].
  rewrite broadcast_loop_run. done.
Qed.

Lemma publish_run request props chans st :
  JSON_parse (Request.body request) = Some (VObj props) ->
  iterate (default VUndef (assoc "channels" props)) = Some chans ->
  publish request st
  = (Normal sent_response, st,
     concat (deliveries st (default VUndef (assoc "name" props))
                           (default VUndef (assoc "data" props))
                           (default VUndef (assoc "socket_id" props)) <$> chans)).
Proof.
  intros Hp Hit. unfold publish, parse_or_throw. rewrite Hp, ret_bind.
  rewrite (bind_normal _ _ _ _ _ _ (broadcast_run _ _ _ Hit)).
  unfold ret, completion, state_of, sent. cbn [fst snd]. by rewrite app_nil_r.
Qed.

Lemma publish_state request st : state_of (publish request st) = st.
Proof.
  unfold publish. rewrite state_bind.
  pose proof (readonly_parse (Request.body request) st) as Hr.
  destruct (completion _) as [body|e]; [|done].
  rewrite Hr, state_bind. rewrite broadcast_state.
  by destruct (completion _).
Qed.

Lemma publish_completion request st resp :
  completion (publish request st) = Normal resp -> resp = sent_response.
Proof.
  unfold publish. rewrite !completion_bind.
  destruct (completion _) as [body|e]; [|done].
  rewrite completion_bind. destruct (completion _); [|done].
  by intros [= <-].
Qed.

(** X6. [fetch] of the object answers 101 exactly to the requests whose
    Upgrade header is [websocket], whatever their path and method, and
    then it has registered one session under the new socket id and
    greeted it; among the others it answers 202 exactly to the POST
    requests whose path ends in [/events], and 404 [Not found] to the
    rest.  A request without the header never changes the state, and a
    publish whose body is an object with a list of channels sends the
    deliveries of the listed channels, in order. *)
Theorem X6_fetch_of_the_object st now random request :
  let r := fetch now random request st in
  let ws := is_websocket (Request.upgrade request) in
  let events :=
    endsWith (Request.pathname request) "/events"
    && String.eqb (Request.method request) "POST" in
  let id := socketId_at now random in
  (forall resp, completion r = Normal resp ->
     (Response.status resp = 101%Z <-> ws = true) /\
     (Response.status resp = 202%Z <-> ws = false /\ events = true) /\
     (Response.status resp = 404%Z <-> ws = false /\ events = false)) /\
  (ws = true ->
     r = (Normal (Response.mk 101 None None (Some id)),
          mkDO (<[id := Client.mk [] None]> (clients st)) (channels st) (presence st),
          [(id, connection_established id)])) /\
  (ws = false -> state_of r = st) /\
  (ws = false -> events = false ->
     r = (Normal (Response.mk 404 (Some "Not found") None None), st, [])) /\
  (forall props chans,
     ws = false -> events = true ->
     JSON_parse (Request.body request) = Some (VObj props) ->
     iterate (default VUndef (assoc "channels" props)) = Some chans ->
     r = (Normal (Response.mk 202 (Some (JSON_stringify (VObj [("sent", VBool true)])))
                    (Some "application/json") None),
          st,
          concat (deliveries st (default VUndef (assoc "name" props))
                                (default VUndef (assoc "data" props))
                                (default VUndef (assoc "socket_id" props)) <$> chans))).
Proof.
  intros r ws events id. subst r. unfold fetch. fold ws events.
  destruct ws; [|destruct events].
  - rewrite handleWebSocket_run. unfold completion. cbn [fst].
    split_and!; try done.
    intros resp [= <-]. cbn. split_and!; split; try done; by intros [? ?].
  - split_and!; try done.
    + intros resp Hresp. apply publish_completion in Hresp as ->. cbn.
      split_and!; split; try done; by intros [? ?].
    + intros _. apply publish_state.
    + intros props chans _ _ Hp Hit. by apply publish_run.
  - split_and!; try done.
    intros resp [= <-]. cbn. split_and!; split; try done; by intros [? ?].
Qed.

(** X7. When [fetch] of the object raises, the request was a publish, no
    event has been sent and the state is as before: a publish is never
    delivered in part.  The exception is a SyntaxError exactly when the
    body is not JSON; otherwise it is the TypeError of a body that is
    [null] or whose [channels] cannot be iterated. *)
Theorem X7_failed_publish_sends_nothing st now random request e :
  completion (fetch now random request st) = Throw e ->
  fetch now random request st = (Throw e, st, []) /\
  is_websocket (Request.upgrade request) = false /\
  endsWith (Request.pathname request) "/events" = true /\
  Request.method request = "POST" /\
  (e = SyntaxError <-> JSON_parse (Request.body request) = None) /\
  (e = TypeError <->
   exists body, JSON_parse (Request.body request) = Some body /\
     (body = VNull \/ body = VUndef \/
      exists chans, prop body "channels" = Normal chans /\ iterate chans = None)).
Proof.
  unfold fetch.
  destruct (is_websocket _).
  { rewrite handleWebSocket_run. done. }
  destruct (endsWith _ _) eqn:Hends; [|done].
  destruct (String.eqb _ _) eqn:Hpost; [|done].
  apply String.eqb_eq in Hpost. cbn [andb].
  unfold publish, parse_or_throw.
  destruct (JSON_parse _) as [body|] eqn:Hp.
  2:{ intros [= <-]. split_and!; try done. split; [done|]. intros (b & ? & _). done. }
  rewrite ret_bind, completion_bind.
  destruct (completion (broadcast body st)) as [[]|e'] eqn:Hb; [done|].
  intros [= ->]. pose proof (broadcast_throw _ _ _ Hb) as Hrun.
  rewrite Hrun in Hb. injection Hb as <-.
  rewrite (bind_throw _ _ _ _ _ _ Hrun).
  split_and!; try done.
  split; [intros _|done]. exists body. split; [done|].
  revert Hrun. unfold broadcast.
  destruct body; try (by left); try (by right; left); right; right.
  all: simpl lift in Hrun; rewrite !ret_bind in Hrun; eexists; split; [reflexivity|].
  all: destruct (iterate _) as [l|] eqn:Hit; [|done].
  all: by rewrite broadcast_loop_run in Hrun.
Qed.

(** X8. Behind the router the 404 of the object is never reached: a
    request goes to the object only on the path [/app/KEY] with the
    Upgrade header [websocket] or as a POST on the path
    [/apps/ID/events], the first opens a session and the second is a
    publish; any other request is answered 404 by the router, with no
    change of state and nothing sent.  The object looks at the Upgrade
    header first, so a POST on the publish path that carries the header
    opens a session and publishes nothing. *)
Theorem X8_router_and_object st PUSHER_APP_ID now random request :
  let ws := String.eqb (Request.pathname request) ("/app/" +:+ PUSHER_APP_KEY)
            && is_websocket (Request.upgrade request) in
  let http := String.eqb (Request.pathname request)
                ("/apps/" +:+ PUSHER_APP_ID +:+ "/events")
              && String.eqb (Request.method request) "POST" in
  worker_fetch PUSHER_APP_ID now random request st
  = if ws || (http && is_websocket (Request.upgrade request))
    then handleWebSocket now random st
    else if http then publish request st
    else (Normal (Response.mk 404 (Some "Not found") None None), st, []).
Proof.
  intros ws http. unfold worker_fetch. cbv zeta. fold ws http.
  unfold fetch.
  destruct ws eqn:Hws.
  { apply andb_true_iff in Hws as [_ ->]. done. }
  cbn [orb]. destruct http eqn:Hhttp; [|done].
  cbn [andb]. destruct (is_websocket _); [done|].
  apply andb_true_iff in Hhttp as [Hpath Hpost].
  apply String.eqb_eq in Hpath. rewrite Hpath, Hpost.
  change ("/apps/" +:+ PUSHER_APP_ID +:+ "/events")
    with (("/apps/" +:+ PUSHER_APP_ID) +:+ "/events") at 1.
  by rewrite endsWith_app.
Qed.

(** *** The hexadecimal signature *)

Lemma hex_digit_inj d1 d2 :
  (d1 < 16)%N -> (d2 < 16)%N -> hex_digit d1 = hex_digit d2 -> d1 = d2.
Proof.
  intros H1 H2.
  assert (Hc : forall d, (d < 16)%N ->
            In d [0; 1; 2; 3; 4; 5; 6; 7; 8; 9; 10; 11; 12; 13; 14; 15]%N).
  { intros d Hd. cbn [In]. lia. }
  apply Hc in H1, H2. cbn [In] in H1, H2.
  repeat (destruct H1 as [<-|H1];
          [repeat (destruct H2 as [<-|H2];
                   [vm_compute; intros; reflexivity || discriminate|]);
           by destruct H2|]).
  by destruct H1.
Qed.

Lemma byte_hex_digits b :
  (b < 256)%N ->
  padStart2 (toString16 b)
  = String (hex_digit (b / 16)) (String (hex_digit (b mod 16)) EmptyString).
Proof.
  intros Hb. unfold toString16.
  destruct (b <? 16)%N eqn:Hlt; [|done].
  apply N.ltb_lt in Hlt.
  by rewrite N.div_small, N.mod_small.
Qed.

Lemma hex_cons b bytes :
  (b < 256)%N ->
  hex (b :: bytes)
  = String (hex_digit (b / 16)) (String (hex_digit (b mod 16)) (hex bytes)).
Proof.
  intros Hb. unfold hex. cbn [map]. rewrite (byte_hex_digits b Hb).
  by destruct (map _ bytes).
Qed.

(** X9. The hexadecimal rendering of a digest loses nothing: two lists
    of bytes have the same rendering exactly when they are the same list,
    so two signatures are equal as texts exactly when the digests are
    equal. *)
Theorem X9_hex_keeps_the_digest bytes1 bytes2 :
  Forall (fun b => (b < 256)%N) bytes1 ->
  Forall (fun b => (b < 256)%N) bytes2 ->
  (hex bytes1 = hex bytes2 <-> bytes1 = bytes2).
Proof.
  intros H1 H2. split; [|by intros ->].
  revert bytes2 H2. induction H1 as [|b1 l1 Hb1 _ IH]; intros bytes2 H2 Heq.
  - destruct H2 as [|b2 l2 Hb2 _]; [done|]. by rewrite hex_cons in Heq.
  - destruct H2 as [|b2 l2 Hb2 Hl2]; [by rewrite hex_cons in Heq|].
    rewrite !hex_cons in Heq by done. injection Heq as Hhi Hlo Hrest.
    apply hex_digit_inj in Hhi; [|apply N.Div0.div_lt_upper_bound; lia..].
    apply hex_digit_inj in Hlo; [|by apply N.mod_lt..].
    rewrite (IH l2 Hl2 Hrest). f_equal.
    rewrite (N.div_mod b1 16), (N.div_mod b2 16) by done. lia.
Qed.

(** *** Subscribing and unsubscribing, composed *)

Lemma subscribe_run_public st sid c payload ch :
  clients st !! sid = Some c ->
  prop payload "channel" = Normal (VStr ch) ->
  protected ch = false ->
  subscribe sid payload st
  = (Normal tt, joined sid ch st,
     [(sid, subscription_succeeded_internal ch "{}"); (sid, subscription_succeeded ch)]).
Proof.
  intros Hc Hch Hprot. unfold subscribe. rewrite Hch. simpl lift.
  rewrite ret_bind, get_bind, Hc. unfold protected in Hprot. rewrite Hprot.
  apply subscribe_join_run_plain. by apply orb_false_iff in Hprot as [_ ?].
Qed.

Lemma joined_idem sid ch st : joined sid ch (joined sid ch st) = joined sid ch st.
Proof.
  destruct st as [cl chs pr]. unfold joined. cbn [clients channels presence]. f_equal.
  - rewrite alter_alter_eq. apply alter_ext. intros c _. cbn. f_equal.
    apply Set_add_present, elem_of_Set_add. by left.
  - rewrite lookup_insert_eq, insert_insert_eq. cbn [default]. f_equal.
    apply Set_add_present, elem_of_Set_add. by left.
Qed.

(** X10. A registered session that asks for a channel that is neither
    private nor presence is subscribed without any credential and gets
    the two acknowledgments with the data text of an empty object; the
    channel's subscribers are then the former ones and the session.
    Asking again leaves the tables as they are and is acknowledged
    again. *)
Theorem X10_public_subscribe_is_idempotent st sid c payload ch :
  clients st !! sid = Some c ->
  prop payload "channel" = Normal (VStr ch) ->
  protected ch = false ->
  let acks :=
    [(sid, VObj [("event", VStr "pusher_internal:subscription_succeeded");
                 ("channel", VStr ch); ("data", VStr "{}")]);
     (sid, VObj [("event", VStr "pusher:subscription_succeeded");
                 ("channel", VStr ch); ("data", VStr "{}")])] in
  let r := subscribe sid payload st in
  completion r = Normal tt /\
  sent r = acks /\
  (forall s, s ∈ subscribers (state_of r) ch <-> s = sid \/ s ∈ subscribers st ch) /\
  (forall ch', ch' <> ch -> subscribers (state_of r) ch' = subscribers st ch') /\
  subscribe sid payload (state_of r) = (Normal tt, state_of r, acks).
Proof.
  intros Hc Hch Hprot acks r. subst r.
  rewrite (subscribe_run_public _ _ _ _ _ Hc Hch Hprot).
  unfold completion, state_of, sent. cbn [fst snd].
  split_and!; try done.
  - intros s. rewrite subscribers_joined, decide_True by done. apply elem_of_Set_add.
  - intros ch' Hne. by rewrite subscribers_joined, decide_False.
  - assert (Hlive : is_Some (clients (joined sid ch st) !! sid)).
    { apply live_joined. by eexists. }
    destruct Hlive as [c' Hc'].
    rewrite (subscribe_run_public _ _ _ _ _ Hc' Hch Hprot). by rewrite joined_idem.
Qed.

Lemma parted_joined sid c ch st :
  clients st !! sid = Some c ->
  consistent st -> no_orphans st ->
  ch ∉ Client.channels c ->
  parted sid ch (joined sid ch st) = st.
Proof.
  intros Hc Hst Horph Hch.
  assert (Hsid : sid ∉ subscribers st ch).
  { intros Hin. apply Hst in Hin as (c' & Hc' & Hin). by simplify_eq. }
  destruct st as [cl chs pr]. unfold subscribers in Hsid.
  unfold parted, joined. cbn [clients channels presence] in *. f_equal.
  - rewrite alter_alter_eq. apply alter_id. intros x Hx.
    rewrite Hc in Hx. injection Hx as <-.
    destruct c as [l u]. unfold compose. cbn [Client.channels Client.user] in *.
    by rewrite Set_delete_Set_add.
  - rewrite lookup_insert_eq. cbn [fmap option_fmap option_map].
    rewrite Set_delete_Set_add by done.
    destruct (chs !! ch) as [set|] eqn:Hset; cbn [default].
    + destruct set as [|x set]; [by destruct (Horph ch [] Hset)|].
      cbn [length Nat.eqb]. rewrite insert_insert_eq. by apply insert_id.
    + cbn [length Nat.eqb]. by apply delete_insert_id.
Qed.

(** X11. Subscribe and unsubscribe are inverse on a channel that is not
    a presence channel: from a state that satisfies the membership
    invariant and has no empty subscriber set, a session that was not
    in the channel and whose subscription is let through (the channel is
    public, or it is private and the credential verifies) is, after its
    unsubscribe, back in exactly the state it started from. *)
Theorem X11_subscribe_then_unsubscribe st sid c payload ch :
  clients st !! sid = Some c ->
  consistent st ->
  no_orphans st ->
  prop payload "channel" = Normal (VStr ch) ->
  String.prefix "presence-" ch = false ->
  protected ch = false \/ verifies sid ch payload = true ->
  ch ∉ Client.channels c ->
  let st1 := state_of (subscribe sid payload st) in
  sid ∈ subscribers st1 ch /\
  unsubscribe sid (VStr ch) st1 = (Normal tt, st, []).
Proof.
  intros Hc Hst Horph Hch Hpres Hok Hnew st1.
  assert (Hst1 : st1 = joined sid ch st).
  { subst st1. destruct Hok as [Hpub|Hver].
    - by rewrite (subscribe_run_public _ _ _ _ _ Hc Hch Hpub).
    - destruct (prop_VStr_object _ _ _ Hch) as [props ->].
      destruct (protected ch) eqn:Hprot.
      + unfold protected in Hprot. rewrite Hpres, orb_false_r in Hprot.
        by rewrite (subscribe_run_private _ _ _ _ _ Hc Hch Hprot Hpres Hver).
      + by rewrite (subscribe_run_public _ _ _ _ _ Hc Hch Hprot). }
  rewrite Hst1. split.
  - rewrite subscribers_joined, decide_True by done. apply elem_of_Set_add. by left.
  - assert (Hlive : is_Some (clients (joined sid ch st) !! sid)).
    { apply live_joined. by eexists. }
    destruct Hlive as [c' Hc'].
    rewrite (unsubscribe_run _ _ _ _ Hc'), Hpres.
    by rewrite (parted_joined _ _ _ _ Hc).
Qed.

Lemma parted_idem sid ch st : parted sid ch (parted sid ch st) = parted sid ch st.
Proof.
  destruct st as [cl chs pr]. unfold parted. cbn [clients channels presence]. f_equal.
  - rewrite alter_alter_eq. apply alter_ext. intros c _. cbn. f_equal.
    apply Set_delete_idem.
  - destruct (chs !! ch) as [set|] eqn:Hset; cbn [fmap option_fmap option_map].
    + destruct (Nat.eqb (length (Set_delete sid set)) 0) eqn:Hlen.
      * by rewrite lookup_delete_eq.
      * rewrite lookup_insert_eq. cbn [fmap option_fmap option_map].
        rewrite Set_delete_idem, Hlen. by rewrite insert_insert_eq.
    + by rewrite Hset.
Qed.

Lemma Map_delete_idem k m : Map_delete k (Map_delete k m) = Map_delete k m.
Proof.
  unfold Map_delete. induction m as [|e m IH]; [done|].
  destruct (SameValueZero (fst e) k) eqn:He.
  - rewrite filter_cons_False by (rewrite He; by intros H). done.
  - rewrite filter_cons_True by by rewrite He.
    rewrite filter_cons_True by by rewrite He.
    by rewrite IH.
Qed.

Lemma forgotten_parted uid sid ch ch' st :
  forgotten uid ch (parted sid ch' st) = parted sid ch' (forgotten uid ch st).
Proof. done. Qed.

Lemma forgotten_idem uid ch st :
  forgotten uid ch (forgotten uid ch st) = forgotten uid ch st.
Proof.
  unfold forgotten. cbn [clients channels presence]. f_equal.
  rewrite alter_alter_eq. apply alter_ext. intros m _. apply Map_delete_idem.
Qed.

(** X12. Unsubscribing twice from the same channel leaves the tables as
    one unsubscribe does, but nothing guards the announcement: the
    second unsubscribe of a session with an identity from a presence
    channel sends the member-removed events of the first once more. *)
Theorem X12_unsubscribe_twice st sid c ch :
  clients st !! sid = Some c ->
  let r1 := unsubscribe sid (VStr ch) st in
  let r2 := unsubscribe sid (VStr ch) (state_of r1) in
  completion r2 = Normal tt /\
  state_of r2 = state_of r1 /\
  sent r2 = sent r1 /\
  (forall s, s ∈ subscribers (state_of r1) ch <-> s <> sid /\ s ∈ subscribers st ch).
Proof.
  intros Hc r1 r2. subst r1 r2.
  rewrite (unsubscribe_run _ _ _ _ Hc).
  assert (Hc1 : clients (parted sid ch st) !! sid
                = Some (Client.mk (Set_delete ch (Client.channels c)) (Client.user c))).
  { unfold parted. cbn [clients]. by rewrite lookup_alter_eq, Hc. }
  assert (Hsubs : forall s, s ∈ subscribers (parted sid ch st) ch
                            <-> s <> sid /\ s ∈ subscribers st ch).
  { intros s. rewrite subscribers_parted, decide_True by done. apply elem_of_Set_delete. }
  destruct (String.prefix "presence-" ch) eqn:Hpres.
  - destruct (Client.user c) as [u|] eqn:Hu; unfold state_of, sent; cbn [fst snd].
    + assert (Hc2 : clients (forgotten (User.id u) ch (parted sid ch st)) !! sid
                    = Some (Client.mk (Set_delete ch (Client.channels c)) (Some u))) by done.
      rewrite (unsubscribe_run _ _ _ _ Hc2), Hpres. cbn [Client.user].
      unfold completion, state_of, sent. cbn [fst snd].
      split_and!; [done| | |done].
      * by rewrite <- (forgotten_parted _ _ _ _ (parted sid ch st)), parted_idem,
          forgotten_idem.
      * f_equal.
        change (subscribers (forgotten (User.id u) ch (parted sid ch st)) ch)
          with (subscribers (parted sid ch st) ch).
        rewrite subscribers_parted, decide_True by done.
        rewrite Set_delete_idem. apply filter_ext_in. intros s _.
        change (live (forgotten (User.id u) ch (parted sid ch st)) s)
          with (live (parted sid ch st) s).
        apply live_parted.
    + rewrite (unsubscribe_run _ _ _ _ Hc1), Hpres. cbn [Client.user].
      unfold completion, state_of, sent. cbn [fst snd].
      by rewrite parted_idem.
  - unfold state_of, sent; cbn [fst snd].
    rewrite (unsubscribe_run _ _ _ _ Hc1), Hpres.
    unfold completion, state_of, sent. cbn [fst snd].
    by rewrite parted_idem.
Qed.

(** *** Disconnection *)

Lemma unsubscribe_step sid c ch st :
  clients st !! sid = Some c ->
  exists st1,
    unsubscribe sid (VStr ch) st
    = (Normal tt, st1,
       if String.prefix "presence-" ch then
         match Client.user c with
         | Some u => (fun s => (s, member_removed ch u))
                       <$> filter (live st) (Set_delete sid (subscribers st ch))
         | None => []
         end
       else []) /\
    clients st1 = clients (parted sid ch st) /\
    channels st1 = channels (parted sid ch st).
Proof.
  intros Hc. rewrite (unsubscribe_run _ c) by done.
  destruct (String.prefix "presence-" ch); [|by eauto].
  destruct (Client.user c); by eauto.
Qed.

Lemma onClose_loop_tables sid l : forall st c,
  clients st !! sid = Some c ->
  let st' := state_of (for_of l (fun ch => unsubscribe sid (VStr ch)) st) in
  (forall s, s <> sid -> clients st' !! s = clients st !! s) /\
  (forall ch, subscribers st' ch
              = if decide (ch ∈ l) then Set_delete sid (subscribers st ch)
                else subscribers st ch).
Proof.
  induction l as [|x l IH]; intros st c Hc.
  - split; [done|]. intros ch. rewrite decide_False; [done|]. apply not_elem_of_nil.
  - cbv zeta. cbn [for_of].
    destruct (unsubscribe_step sid c x st Hc) as (st1 & Hrun & Hcl & Hch).
    rewrite (bind_normal _ _ _ _ _ _ Hrun). unfold state_of at 1 3. cbn [fst snd].
    assert (Hc1 : clients st1 !! sid
                  = Some (Client.mk (Set_delete x (Client.channels c)) (Client.user c))).
    { rewrite Hcl. unfold parted. cbn [clients]. by rewrite lookup_alter_eq, Hc. }
    destruct (IH st1 _ Hc1) as [IHc IHs]. split.
    + intros s Hs. rewrite IHc, Hcl by done. unfold parted. cbn [clients].
      by rewrite lookup_alter_ne.
    + intros ch. rewrite IHs.
      assert (Hsub : subscribers st1 ch = subscribers (parted sid x st) ch)
        by (unfold subscribers; by rewrite Hch).
      rewrite Hsub, subscribers_parted.
      destruct (decide (x = ch)) as [->|Hne].
      * rewrite (decide_True (P := ch ∈ ch :: l)) by apply list_elem_of_here.
        rewrite Set_delete_idem. by case_decide.
      * destruct (decide (ch ∈ l)) as [Hin|Hin].
        -- rewrite decide_True; [done|]. by apply list_elem_of_further.
        -- rewrite decide_False; [done|]. rewrite not_elem_of_cons. by split.
Qed.

(** X13. When a registered session disconnects in a state that
    satisfies the membership invariant, its registry entry is deleted and
    the other entries stay as they are, and every subscriber set loses
    the session and nothing else: no table refers to the session any
    more. *)
Theorem X13_close_forgets_the_session st sid c :
  clients st !! sid = Some c ->
  consistent st ->
  let r := onClose sid st in
  completion r = Normal tt /\
  clients (state_of r) !! sid = None /\
  (forall s, s <> sid -> clients (state_of r) !! s = clients st !! s) /\
  (forall ch, subscribers (state_of r) ch = Set_delete sid (subscribers st ch)) /\
  (forall ch, sid ∉ subscribers (state_of r) ch).
Proof.
  intros Hc Hst r. subst r. rewrite (onClose_registered _ c) by done. cbv zeta.
  destruct (onClose_loop_tables sid (Client.channels c) st c Hc) as [Hcl Hsub].
  cbv zeta in Hcl, Hsub. set (loop := for_of _ _ _) in *.
  unfold completion, state_of at 1 2 3 4. cbn [fst snd].
  assert (Hall : forall ch, subscribers (removed sid (state_of loop)) ch
                            = Set_delete sid (subscribers st ch)).
  { intros ch. change (subscribers (removed sid (state_of loop)) ch)
      with (subscribers (state_of loop) ch).
    rewrite Hsub. case_decide as Hin; [done|].
    symmetry. apply Set_delete_fresh. intros Hs.
    apply Hst in Hs as (c' & Hc' & Hch). by simplify_eq. }
  split_and!; [done| | |done|].
  - unfold removed. cbn [clients]. apply lookup_delete_eq.
  - intros s Hs. unfold removed. cbn [clients]. rewrite lookup_delete_ne by done.
    by apply Hcl.
  - intros ch. rewrite Hall, elem_of_Set_delete. by intros [? _].
Qed.

Lemma onClose_loop_sent sid l : forall st c to f,
  clients st !! sid = Some c ->
  (to, f) ∈ sent (for_of l (fun ch => unsubscribe sid (VStr ch)) st) <->
  exists ch u,
    ch ∈ l /\ String.prefix "presence-" ch = true /\ Client.user c = Some u /\
    to ∈ subscribers st ch /\ to <> sid /\ live st to /\ f = member_removed ch u.
Proof.
  induction l as [|x l IH]; intros st c to f Hc.
  - split; [intros Hin; by apply not_elem_of_nil in Hin|].
    intros (ch & u & Hin & _). by apply not_elem_of_nil in Hin.
  - cbn [for_of].
    destruct (unsubscribe_step sid c x st Hc) as (st1 & Hrun & Hcl & Hch).
    rewrite (bind_normal _ _ _ _ _ _ Hrun). unfold sent at 1. cbn [snd].
    assert (Hc1 : clients st1 !! sid
                  = Some (Client.mk (Set_delete x (Client.channels c)) (Client.user c))).
    { rewrite Hcl. unfold parted. cbn [clients]. by rewrite lookup_alter_eq, Hc. }
    assert (Hsub : forall ch, subscribers st1 ch = subscribers (parted sid x st) ch)
      by (intros ch; unfold subscribers; by rewrite Hch).
    assert (Hlive : forall s, live st1 s <-> live st s).
    { intros s. unfold live. rewrite Hcl. apply live_parted. }
    rewrite elem_of_app, (IH st1 _ to f Hc1). cbn [Client.user].
    split.
    + intros [Hhead|(ch & u & Hin & Hp & Hu & Hto & Hne & Hl & ->)].
      * destruct (String.prefix "presence-" x) eqn:Hp;
          [|by apply not_elem_of_nil in Hhead].
        destruct (Client.user c) as [u|] eqn:Hu; [|by apply not_elem_of_nil in Hhead].
        apply list_elem_of_fmap in Hhead as (s & [= -> ->] & Hs).
        apply list_elem_of_filter in Hs as [Hl Hs].
        apply elem_of_Set_delete in Hs as [Hne Hs].
        exists x, u. split_and!; try done. apply list_elem_of_here.
      * exists ch, u. rewrite Hsub, subscribers_parted in Hto.
        split_and!; try done.
        -- by apply list_elem_of_further.
        -- case_decide; [|done]. by apply elem_of_Set_delete in Hto as [_ ?].
        -- by apply Hlive.
    + intros (ch & u & Hin & Hp & Hu & Hto & Hne & Hl & ->).
      destruct (decide (ch = x)) as [->|Hx].
      * left. rewrite Hp, Hu. apply list_elem_of_fmap. exists to. split; [done|].
        apply list_elem_of_filter. split; [done|]. by apply elem_of_Set_delete.
      * right. exists ch, u. apply elem_of_cons in Hin as [?|Hin]; [done|].
        split_and!; try done.
        -- rewrite Hsub, subscribers_parted. by rewrite decide_False.
        -- by apply Hlive.
Qed.

(** X14. The events of a disconnection are the member-removed events of
    the presence channels the session was in, each carrying the user id
    of the session and going to every other subscriber of the channel;
    nothing goes to the closing session, and a session without an
    identity disconnects without any event. *)
Theorem X14_close_announcements st sid c :
  clients st !! sid = Some c ->
  consistent st ->
  let r := onClose sid st in
  (forall to f,
     (to, f) ∈ sent r <->
     exists ch u,
       ch ∈ Client.channels c /\ String.prefix "presence-" ch = true /\
       Client.user c = Some u /\ to ∈ subscribers st ch /\ to <> sid /\
       f = VObj [("event", VStr "pusher_internal:member_removed");
                 ("channel", VStr ch);
                 ("data", VStr (JSON_stringify (VObj [("user_id", User.id u)])))]) /\
  (Client.user c = None -> sent r = []).
Proof.
  intros Hc Hst r. subst r. rewrite (onClose_registered _ c) by done. cbv zeta.
  unfold sent at 1 3. cbn [snd].
  assert (Hiff : forall to f,
            (to, f) ∈ sent (for_of (Client.channels c)
                              (fun ch => unsubscribe sid (VStr ch)) st) <->
            exists ch u,
              ch ∈ Client.channels c /\ String.prefix "presence-" ch = true /\
              Client.user c = Some u /\ to ∈ subscribers st ch /\ to <> sid /\
              f = member_removed ch u).
  { intros to f. rewrite (onClose_loop_sent _ _ _ c) by done. split.
    - intros (ch & u & ? & ? & ? & ? & ? & ? & ?). by exists ch, u.
    - intros (ch & u & ? & ? & ? & Hto & ? & ?). exists ch, u.
      split_and!; try done. by apply (consistent_live st ch). }
  split; [exact Hiff|].
  intros Hnone. destruct (sent _) as [|[to f] rest] eqn:Hsent; [done|].
  destruct (proj1 (Hiff to f)) as (ch & u & _ & _ & Hu & _).
  - apply list_elem_of_here.
  - by rewrite Hnone in Hu.
Qed.

(** *** The presence store *)

Lemma subscribe_state_presence sid payload st :
  state_of (subscribe sid payload st) = st \/
  (exists ch, prop payload "channel" = Normal (VStr ch) /\
     (state_of (subscribe sid payload st) = joined sid ch st \/
      exists user_id user_info,
        String.prefix "presence-" ch = true /\
        state_of (subscribe sid payload st)
        = joined sid ch (identified sid ch user_id user_info st))).
Proof.
  unfold subscribe.
  destruct (prop payload "channel") as [channel|e]; [|by left].
  simpl lift. rewrite ret_bind, get_bind.
  destruct (clients st !! sid) as [c|] eqn:Hc; [|by left].
  destruct channel as [| | | |ch| | |]; try by left.
  destruct (String.prefix "private-" ch || String.prefix "presence-" ch).
  2:{ right. exists ch. split; [done|]. left. apply subscribe_join_state. }
  destruct (prop payload "auth") as [auth|e]; [|by left].
  simpl lift. rewrite ret_bind.
  destruct (negb (truthy auth)); [by left|].
  destruct auth as [| | | |auth| | |]; try by left.
  destruct (negb _); [by left|].
  destruct (prop payload "channel_data") as [cd|e]; [|by left].
  simpl lift. rewrite ret_bind.
  destruct (negb _); [by left|].
  rewrite state_bind.
  destruct (String.prefix "presence-" ch) eqn:Hpres.
  - destruct (subscribe_presence_cases sid ch cd st)
      as [[e ->]|(uid & uinfo & ->)]; [by left|].
    right. exists ch. split; [done|]. right. exists uid, uinfo. split; [done|].
    apply subscribe_join_state.
  - right. exists ch. split; [done|]. left. apply subscribe_join_state.
Qed.

Lemma presence_on_presence_channels_leaving :
  closed_under_leaving presence_on_presence_channels.
Proof.
  split; [done|]. intros uid ch st Hst ch' Hsome. apply Hst.
  unfold forgotten in Hsome. cbn [presence] in Hsome.
  by apply lookup_alter_is_Some in Hsome.
Qed.

Lemma presence_on_presence_channels_subscribe sid payload st :
  presence_on_presence_channels st ->
  presence_on_presence_channels (state_of (subscribe sid payload st)).
Proof.
  intros Hst.
  destruct (subscribe_state_presence sid payload st)
    as [->|(ch & _ & [->|(uid & uinfo & Hpres & ->)])]; [done..|].
  intros ch' Hsome. unfold joined, identified in Hsome. cbn [presence] in Hsome.
  apply lookup_insert_is_Some in Hsome as [<-|[_ Hsome]]; [done|by apply Hst].
Qed.

(** X15. The presence store has entries for presence channels only: in
    every state the object can reach, each channel that has a member map
    has a name that starts with [presence-], and every inbound frame and
    every disconnection keeps it so. *)
Theorem X15_presence_store_holds_presence_channels_only :
  (forall st, reachable st -> presence_on_presence_channels st) /\
  (forall st, presence_on_presence_channels st ->
     (forall sid text, presence_on_presence_channels (state_of (onMessage sid text st))) /\
     (forall sid, presence_on_presence_channels (state_of (onClose sid st)))).
Proof.
  assert (Hmsg : forall st sid text, presence_on_presence_channels st ->
            presence_on_presence_channels (state_of (onMessage sid text st))).
  { intros st sid text Hst.
    apply onMessage_preserves; [apply presence_on_presence_channels_subscribe| |done].
    intros. by apply unsubscribe_preserves;
      [apply presence_on_presence_channels_leaving|]. }
  assert (Hclose : forall st sid, presence_on_presence_channels st ->
            presence_on_presence_channels (state_of (onClose sid st))).
  { intros st sid Hst.
    by apply onClose_preserves; [apply presence_on_presence_channels_leaving| |]. }
  split; [|by auto].
  induction 1 as [|st sid _ IH Hfresh|st sid text _ IH|st body _ IH|st sid _ IH].
  - intros ch [m Hm]. cbn in Hm. by rewrite lookup_empty in Hm.
  - by rewrite acceptWebSocket_run.
  - by apply Hmsg.
  - by rewrite broadcast_state.
  - by apply Hclose.
Qed.

(** X16. No method deletes an entry of the presence store: a channel
    that has a member map keeps one through every inbound frame, publish,
    connection and disconnection.  In particular the member map outlives
    the channel: when the only subscriber of a presence channel leaves
    and its user id is a primitive value, the channel is deleted from the
    channel index and its member map stays in the store, without the
    user id of the leaver and with every other entry it had. *)
Theorem X16_presence_entries_are_never_deleted st ch :
  is_Some (presence st !! ch) ->
  (forall sid text, is_Some (presence (state_of (onMessage sid text st)) !! ch)) /\
  (forall sid, is_Some (presence (state_of (onClose sid st)) !! ch)) /\
  (forall body, is_Some (presence (state_of (broadcast body st)) !! ch)) /\
  (forall sid, is_Some (presence (state_of (acceptWebSocket sid st)) !! ch)) /\
  (forall sid c u,
     clients st !! sid = Some c -> Client.user c = Some u ->
     primitive (User.id u) = true ->
     String.prefix "presence-" ch = true ->
     channels st !! ch = Some [sid] ->
     let st' := state_of (unsubscribe sid (VStr ch) st) in
     channels st' !! ch = None /\
     is_Some (presence st' !! ch) /\
     forall k info,
       (k, info) ∈ default [] (presence st' !! ch) <->
       (k, info) ∈ default [] (presence st !! ch) /\ k <> User.id u).
Proof.
  intros Hsome.
  set (P := fun st' : PusherDO => is_Some (presence st' !! ch)).
  assert (Hleave : closed_under_leaving P).
  { split; [done|]. intros uid ch' st' H. unfold P, forgotten. cbn [presence].
    by apply lookup_alter_is_Some. }
  assert (Hunsub : forall sid channel st', P st' ->
            P (state_of (unsubscribe sid channel st'))).
  { intros. by apply unsubscribe_preserves. }
  assert (Hsub : forall sid payload st', P st' -> P (state_of (subscribe sid payload st'))).
  { intros sid payload st' H. apply subscribe_preserves; [done| |done].
    intros s ch' uid uinfo st0 H0. unfold P, identified. cbn [presence].
    apply lookup_insert_is_Some'. by right. }
  split_and!.
  - intros sid text. by apply (onMessage_preserves P).
  - intros sid. by apply (onClose_preserves P).
  - intros body. by rewrite broadcast_state.
  - intros sid. by rewrite acceptWebSocket_run.
  - intros sid c u Hc Hu Hprim Hpres Hch st'. subst st'.
    rewrite (unsubscribe_run _ c) by done. rewrite Hpres, Hu.
    unfold state_of, forgotten, parted. cbn [fst snd clients channels presence].
    rewrite Hch. cbn [fmap option_fmap option_map].
    assert (Hempty : Set_delete sid [sid] = []).
    { unfold Set_delete. by rewrite filter_cons_False, filter_nil by (intros H; by apply H). }
    rewrite Hempty. cbn [length Nat.eqb].
    rewrite lookup_delete_eq, lookup_alter_eq. split_and!; [done|by apply fmap_is_Some|].
    intros k info. destruct Hsome as [m Hm]. rewrite Hm. cbn [fmap option_fmap option_map default].
    unfold id, Map_delete. rewrite list_elem_of_filter. cbn [fst].
    split.
    + intros [Hk Hin]. split; [done|]. intros ->.
      by rewrite SameValueZero_refl in Hk.
    + intros [Hin Hk]. split; [|done].
      destruct (SameValueZero k (User.id u)) eqn:Hs; [|done].
      by apply SameValueZero_eq in Hs.
Qed.

(** X17. The member map of a presence channel is keyed by user id, not
    by session: when one of two sessions that joined with the same user
    id leaves the channel, the id is deleted from the map although the
    other session is still subscribed and still has that identity. *)
Theorem X17_presence_is_keyed_by_user_id st sid c u ch other c2 u2 :
  clients st !! sid = Some c ->
  Client.user c = Some u ->
  String.prefix "presence-" ch = true ->
  primitive (User.id u) = true ->
  other <> sid ->
  other ∈ subscribers st ch ->
  clients st !! other = Some c2 ->
  Client.user c2 = Some u2 ->
  User.id u2 = User.id u ->
  let st' := state_of (unsubscribe sid (VStr ch) st) in
  other ∈ subscribers st' ch /\
  clients st' !! other = Some c2 /\
  (User.id u2 ∉ Map_keys (default [] (presence st' !! ch))).
Proof.
  intros Hc Hu Hpres Hprim Hne Hin Hc2 Hu2 Hid st'. subst st'.
  rewrite (unsubscribe_run _ c) by done. rewrite Hpres, Hu.
  unfold state_of. cbn [fst snd]. split_and!.
  - change (subscribers (forgotten (User.id u) ch (parted sid ch st)) ch)
      with (subscribers (parted sid ch st) ch).
    rewrite subscribers_parted, decide_True by done. by apply elem_of_Set_delete.
  - unfold forgotten, parted. cbn [clients]. by rewrite lookup_alter_ne.
  - rewrite Hid. unfold forgotten, parted. cbn [presence]. rewrite lookup_alter_eq.
    destruct (presence st !! ch) as [m|]; cbn; [|apply not_elem_of_nil].
    by apply Map_delete_gone.
Qed.

(** X18. The identity of a session is written by a presence subscribe
    of that session and by nothing else: no unsubscribe changes the
    identity of any session, so a session keeps its identity after it
    has left every presence channel; a subscribe leaves the registry
    entries of the other sessions as they are, and a subscribe to a
    channel that is not a presence channel leaves every identity as it
    is. *)
Theorem X18_identity_is_kept st sid :
  (forall channel s,
     Client.user <$> clients (state_of (unsubscribe sid channel st)) !! s
     = Client.user <$> clients st !! s) /\
  (forall payload s,
     s <> sid -> clients (state_of (subscribe sid payload st)) !! s = clients st !! s) /\
  (forall payload ch s,
     prop payload "channel" = Normal (VStr ch) ->
     String.prefix "presence-" ch = false ->
     Client.user <$> clients (state_of (subscribe sid payload st)) !! s
     = Client.user <$> clients st !! s).
Proof.
  assert (Hpart : forall ch s st0,
            Client.user <$> clients (parted sid ch st0) !! s = Client.user <$> clients st0 !! s).
  { intros ch s st0. unfold parted. cbn [clients].
    destruct (decide (s = sid)) as [->|Hne].
    - rewrite lookup_alter_eq. by destruct (clients st0 !! sid).
    - by rewrite lookup_alter_ne. }
  assert (Hjoin : forall ch s st0,
            Client.user <$> clients (joined sid ch st0) !! s = Client.user <$> clients st0 !! s).
  { intros ch s st0. unfold joined. cbn [clients].
    destruct (decide (s = sid)) as [->|Hne].
    - rewrite lookup_alter_eq. by destruct (clients st0 !! sid).
    - by rewrite lookup_alter_ne. }
  split_and!.
  - intros channel s.
    destruct (unsubscribe_state sid channel st)
      as [->|(_ & ch & _ & [->|(uid & ->)])]; [done|apply Hpart..].
  - intros payload s Hne.
    destruct (subscribe_state_presence sid payload st)
      as [->|(ch & _ & [->|(uid & uinfo & _ & ->)])]; [done|..];
      unfold joined, identified; cbn [clients]; by rewrite !lookup_alter_ne.
  - intros payload ch s Hch Hpres.
    destruct (subscribe_state_presence sid payload st)
      as [->|(ch' & Hch' & [->|(uid & uinfo & Hpres' & _)])]; [done|apply Hjoin|].
    rewrite Hch in Hch'. injection Hch' as <-. by rewrite Hpres in Hpres'.
Qed.

(** *** Credentials *)

Lemma append_nil_r s : s +:+ "" = s.
Proof.
  induction s as [|c s IH]; [done|].
  change (String c s +:+ "") with (String c (s +:+ "")). by rewrite IH.
Qed.

Lemma verifies_issued sid ch channel_data props :
  colon_free PUSHER_APP_KEY = true ->
  prop (VObj props) "auth" = Normal (auth_for (auth_base sid ch channel_data)) ->
  prop (VObj props) "channel_data" = Normal channel_data ->
  verifies sid ch (VObj props) = true.
Proof.
  intros Hkey Ha Hcd. unfold verifies. rewrite Ha, Hcd. unfold auth_for.
  rewrite split_key_signature by (done || apply hmac_colon_free).
  by rewrite !String.eqb_refl.
Qed.

Lemma unverified_subscribe_state sid c payload ch st :
  clients st !! sid = Some c ->
  prop payload "channel" = Normal (VStr ch) ->
  protected ch = true ->
  verifies sid ch payload = false ->
  state_of (subscribe sid payload st) = st.
Proof.
  intros Hc Hch Hprot Hver. destruct (prop_VStr_object _ _ _ Hch) as [props ->].
  destruct (auth_cases sid ch props) as [Hv|[[message Hf]|[Ht Hns]]].
  - by rewrite Hv in Hver.
  - by rewrite (subscribe_run_rejected _ _ _ _ _ _ Hc Hch Hprot Hf).
  - by rewrite (subscribe_run_auth_not_string _ _ _ _ _ _ Hc Hch Hprot eq_refl Ht Hns).
Qed.


(** X20. The key is compared with the first colon-separated field of
    the credential, which never holds a colon: when the application key
    contains a colon no credential verifies, and every subscribe to a
    private or presence channel leaves the state as it was. *)
Theorem X20_key_with_a_colon_locks_out sid ch payload :
  colon_free PUSHER_APP_KEY = false ->
  verifies sid ch payload = false /\
  (forall st c,
     clients st !! sid = Some c ->
     prop payload "channel" = Normal (VStr ch) ->
     protected ch = true ->
     state_of (subscribe sid payload st) = st).
Proof.
  intros Hkey.
  assert (Hver : verifies sid ch payload = false).
  { unfold verifies.
    destruct (prop payload "auth") as [[| | | |auth| | |]|]; try done.
    destruct (prop payload "channel_data") as [cd|]; [|done].
    destruct (split ":" auth) as [|key [|signature rest]] eqn:Hs; try done.
    destruct (String.eqb key PUSHER_APP_KEY) eqn:Hk; [|done].
    apply String.eqb_eq in Hk. subst key.
    apply split_head_colon_free in Hs. by rewrite Hs in Hkey. }
  split; [done|]. intros st c Hc Hch Hprot.
  by apply (unverified_subscribe_state _ c _ ch).
Qed.

(** X21. The signed text joins the socket id, the channel and the
    channel data with colons and nothing tells a colon of a channel name
    from a separator: the credential issued to a session for the private
    channel [ch:suffix] (without channel data) is accepted from that
    session for the private channel [ch] when the request carries
    [suffix] as its channel data. *)
Theorem X21_signed_text_is_ambiguous st sid c ch suffix :
  clients st !! sid = Some c ->
  colon_free PUSHER_APP_KEY = true ->
  String.prefix "private-" ch = true ->
  String.prefix "presence-" ch = false ->
  suffix <> "" ->
  let issued := auth_for (auth_base sid (ch +:+ ":" +:+ suffix) VUndef) in
  auth_base sid (ch +:+ ":" +:+ suffix) VUndef = auth_base sid ch (VStr suffix) /\
  subscribe sid
    (VObj [("channel", VStr ch); ("auth", issued); ("channel_data", VStr suffix)]) st
  = (Normal tt, joined sid ch st,
     [(sid, subscription_succeeded_internal ch "{}"); (sid, subscription_succeeded ch)]).
Proof.
  intros Hc Hkey Hpriv Hpres Hne issued.
  assert (Hbase : auth_base sid (ch +:+ ":" +:+ suffix) VUndef
                  = auth_base sid ch (VStr suffix)).
  { unfold auth_base. apply truthy_VStr in Hne. rewrite Hne.
    cbn [truthy ToString]. by rewrite append_nil_r. }
  split; [done|].
  apply (subscribe_run_private _ _ c); try done.
  apply (verifies_issued _ _ (VStr suffix)); [done| |done].
  subst issued. by rewrite Hbase.
Qed.

(** *** From a subscribe to a publish *)

Lemma recipients_all st ch : recipients st VUndef ch = subscribers st ch.
Proof.
  unfold recipients. induction (subscribers st ch) as [|s l IH]; [done|].
  rewrite filter_cons_True by done. by rewrite IH.
Qed.

(** X22. A publish reaches a new subscriber through both entry points:
    once a registered session has subscribed to a public channel, a POST
    on the publish path of the router whose body lists that channel and
    names no socket id to skip is answered 202, changes nothing, and
    sends the event with the name and data of the body once to each
    subscriber of the channel, the new one among them. *)
Theorem X22_publish_reaches_the_subscriber
    st sid c payload ch PUSHER_APP_ID now random request props :
  clients st !! sid = Some c ->
  consistent st ->
  prop payload "channel" = Normal (VStr ch) ->
  protected ch = false ->
  Request.pathname request = "/apps/" +:+ PUSHER_APP_ID +:+ "/events" ->
  Request.method request = "POST" ->
  Request.upgrade request = None ->
  JSON_parse (Request.body request) = Some (VObj props) ->
  prop (VObj props) "channels" = Normal (VArr [VStr ch]) ->
  prop (VObj props) "socket_id" = Normal VUndef ->
  let st1 := state_of (subscribe sid payload st) in
  let r := worker_fetch PUSHER_APP_ID now random request st1 in
  let event :=
    VObj [("event", default VUndef (assoc "name" props)); ("channel", VStr ch);
          ("data", default VUndef (assoc "data" props))] in
  completion r
  = Normal (Response.mk 202 (Some (JSON_stringify (VObj [("sent", VBool true)])))
              (Some "application/json") None) /\
  state_of r = st1 /\
  sent r = (fun s => (s, event)) <$> subscribers st1 ch /\
  sid ∈ subscribers st1 ch /\
  (forall s, s ∈ subscribers st ch -> s ∈ subscribers st1 ch).
Proof.
  intros Hc Hst Hch Hprot Hpath Hpost Hup Hbody Hchans Hskip st1 r event.
  assert (Hst1 : st1 = joined sid ch st).
  { subst st1. by rewrite (subscribe_run_public _ _ _ _ _ Hc Hch Hprot). }
  assert (Hcons : consistent st1) by apply subscribe_consistent, Hst.
  assert (Hrun : r = (Normal sent_response, st1, (fun s => (s, event)) <$> subscribers st1 ch)).
  { subst r. unfold worker_fetch, fetch. cbv zeta.
    rewrite Hpath, Hpost, Hup. cbn [is_websocket]. rewrite andb_false_r.
    rewrite !String.eqb_refl. cbn [andb].
    change ("/apps/" +:+ PUSHER_APP_ID +:+ "/events")
      with (("/apps/" +:+ PUSHER_APP_ID) +:+ "/events") at 1.
    rewrite endsWith_app. cbn [andb].
    simpl in Hchans, Hskip. injection Hchans as Hchans. injection Hskip as Hskip.
    rewrite (publish_run _ props [VStr ch]) by (done || by rewrite Hchans).
    rewrite Hskip. cbn [fmap list_fmap concat].
    rewrite deliveries_consistent by done.
    by rewrite recipients_all, app_nil_r. }
  rewrite Hrun. unfold completion, state_of, sent. cbn [fst snd].
  split_and!; try done.
  - rewrite Hst1, subscribers_joined, decide_True by done. apply elem_of_Set_add. by left.
  - intros s Hs. rewrite Hst1, subscribers_joined, decide_True by done.
    apply elem_of_Set_add. by right.
Qed.

(** *** Edges of subscribe and unsubscribe *)




Lemma filter_all {A} (P : A -> Prop) `{!forall x, Decision (P x)} (l : list A) :
  (forall x, x ∈ l -> P x) -> filter P l = l.
Proof.
  induction l as [|x l IH]; intros Hall; [done|].
  rewrite filter_cons_True by apply Hall, list_elem_of_here.
  rewrite IH; [done|]. intros y Hy. by apply Hall, list_elem_of_further.
Qed.

Lemma parted_absent sid c ch st :
  clients st !! sid = Some c ->
  consistent st -> no_orphans st ->
  ch ∉ Client.channels c ->
  parted sid ch st = st.
Proof.
  intros Hc Hst Horph Hch.
  assert (Hsid : sid ∉ subscribers st ch).
  { intros Hin. apply Hst in Hin as (c' & Hc' & Hin). by simplify_eq. }
  destruct st as [cl chs pr]. unfold subscribers in Hsid.
  unfold parted. cbn [clients channels presence] in *. f_equal.
  - apply alter_id. intros x Hx. rewrite Hc in Hx. injection Hx as <-.
    destruct c as [l u]. cbn [Client.channels Client.user] in *.
    by rewrite Set_delete_fresh.
  - destruct (chs !! ch) as [set|] eqn:Hset; cbn [fmap option_fmap option_map]; [|done].
    cbn [default] in Hsid. rewrite Set_delete_fresh by done.
    destruct set as [|x set]; [by destruct (Horph ch [] Hset)|].
    cbn [length Nat.eqb]. by apply insert_id.
Qed.

(** X24. Nothing checks that the session is in the channel it leaves.
    From a state that satisfies the membership invariant and has no
    empty subscriber set, an unsubscribe from a channel the session is
    not in leaves the registry and the channel index as they are, and
    does nothing at all unless the channel is a presence channel and the
    session has an identity: then the user id of the session is deleted
    from the member map of that channel and every subscriber of the
    channel is sent the member-removed event. *)
Theorem X24_leave_without_membership st sid c ch :
  clients st !! sid = Some c ->
  consistent st ->
  no_orphans st ->
  ch ∉ Client.channels c ->
  let r := unsubscribe sid (VStr ch) st in
  completion r = Normal tt /\
  clients (state_of r) = clients st /\
  channels (state_of r) = channels st /\
  (String.prefix "presence-" ch = false \/ Client.user c = None ->
     r = (Normal tt, st, [])) /\
  (forall u,
     String.prefix "presence-" ch = true -> Client.user c = Some u ->
     presence (state_of r) !! ch = Map_delete (User.id u) <$> presence st !! ch /\
     sent r
     = (fun s => (s, VObj [("event", VStr "pusher_internal:member_removed");
                           ("channel", VStr ch);
                           ("data", VStr (JSON_stringify (VObj [("user_id", User.id u)])))]))
         <$> subscribers st ch).
Proof.
  intros Hc Hst Horph Hch r. subst r.
  rewrite (unsubscribe_run _ c) by done.
  rewrite (parted_absent _ c) by done.
  destruct (String.prefix "presence-" ch) eqn:Hpres.
  - destruct (Client.user c) as [u|] eqn:Hu.
    + unfold completion, state_of, sent. cbn [fst snd].
      split_and!; try done.
      * by intros [?|?].
      * intros u' _ [= <-]. split.
        -- unfold forgotten. cbn [presence]. apply lookup_alter_eq.
        -- f_equal. rewrite Set_delete_fresh.
           ++ apply filter_all. intros s Hs. by apply (consistent_live st ch).
           ++ intros Hin. apply Hst in Hin as (c' & Hc' & Hin). by simplify_eq.
    + by split_and!.
  - by split_and!.
Qed.

(** X25. The channel of a request must be a string: a subscribe or an
    unsubscribe of a registered session whose channel is absent or is
    not a string raises a TypeError, with nothing sent and no table
    changed, also when it arrives as a frame. *)
Theorem X25_channel_must_be_a_string st sid c channel :
  clients st !! sid = Some c ->
  (forall ch, channel <> VStr ch) ->
  (forall payload,
     prop payload "channel" = Normal channel ->
     subscribe sid payload st = (Throw TypeError, st, [])) /\
  unsubscribe sid channel st = (Throw TypeError, st, []) /\
  (forall text msg event d payload,
     JSON_parse text = Some msg ->
     prop msg "event" = Normal (VStr event) ->
     event = "pusher:subscribe" \/ event = "pusher:unsubscribe" ->
     prop msg "data" = Normal d ->
     JSON_parse (data_text d) = Some payload ->
     prop payload "channel" = Normal channel ->
     onMessage sid text st = (Throw TypeError, st, [])).
Proof.
  intros Hc Hns.
  assert (Hsub : forall payload,
            prop payload "channel" = Normal channel ->
            subscribe sid payload st = (Throw TypeError, st, [])).
  { intros payload Hch. unfold subscribe. rewrite Hch. simpl lift.
    rewrite ret_bind, get_bind, Hc. destruct channel; try done. by destruct (Hns s). }
  pose proof (unsubscribe_not_string _ _ _ _ Hc Hns) as Hunsub.
  split_and!; [done..|].
  intros text msg event d payload Hp He [->| ->] Hd Hpayload Hch.
  - rewrite (onMessage_subscribe _ _ _ msg d), Hpayload by done. by apply Hsub.
  - rewrite (onMessage_unsubscribe _ _ _ msg d), Hpayload by done.
    rewrite Hch. simpl lift. by rewrite ret_bind.
Qed.


End Host.

(** * The theorems at the example host *)

Import Example.

Local Abbreviation connected' := (connected stringify).
Local Abbreviation presence_request' := (presence_request stringify sign key secret).
Local Abbreviation private_request' := (private_request sign key secret).
Local Abbreviation after_subscribe' := (after_subscribe parse stringify sign key secret).
(** [A] is in [presence-room] as [u1]. *)
Local Abbreviation room_with_A :=
  (after_subscribe' "A" (presence_request' "A" "presence-room" u1) connected').
(** [A] is in [private-chat]; then [B] is too. *)
Local Abbreviation chat_with_A :=
  (after_subscribe' "A" (private_request' "A" "private-chat") connected').
(** [A] has left [private-chat], where it was alone. *)
Local Abbreviation chat_left :=
  (state_of (unsubscribe stringify "A" (VStr "private-chat") chat_with_A)).
Local Abbreviation chat_with_A_B :=
  (after_subscribe' "B" (private_request' "B" "private-chat") chat_with_A).
(** [A] asks for [presence-lobby] as [u2]. *)
Local Abbreviation lobby_request := (presence_request' "A" "presence-lobby" u2).
(** [A] is in [presence-room] as [u1] and then in [presence-lobby] as [u2]. *)
Local Abbreviation room_then_lobby := (after_subscribe' "A" lobby_request room_with_A).
(** [B] is in [presence-room] as [u3]. *)
Local Abbreviation room_with_B :=
  (after_subscribe Traffic.parse stringify sign key secret "B"
     (presence_request' "B" "presence-room" Traffic.u3) connected').
(** [A] has joined [presence-room] as [u1] and [presence-lobby] as [u2]
    and has disconnected; then [C] has connected. *)
Local Abbreviation stale_room :=
  (state_of (acceptWebSocket stringify "C"
     (state_of (onClose stringify "A"
        (after_subscribe Traffic.parse stringify sign key secret "A" lobby_request
           (after_subscribe Traffic.parse stringify sign key secret "A"
              (presence_request' "A" "presence-room" u1) connected')))))).
(** [A] asks for [private-chat] with its credential followed by [:junk]. *)
Local Abbreviation junk_request :=
  [("channel", VStr "private-chat"); ("auth", VStr "app-key:0a0e0aff:junk")].

(** The two connections are made from the initial state. *)
Lemma connected_reachable : reachable parse stringify sign key secret connected'.
Proof.
  unfold connected.
  apply reach_accept; [apply reach_accept; [apply reach_initial | reflexivity] | reflexivity].
Qed.

Lemma connected_consistent : consistent connected'.
Proof. exact (reachable_consistent _ _ _ _ _ _ connected_reachable). Qed.

Lemma room_with_A_consistent : consistent room_with_A.
Proof. apply subscribe_consistent, connected_consistent. Qed.

Lemma chat_with_A_B_consistent : consistent chat_with_A_B.
Proof. do 2 apply subscribe_consistent. apply connected_consistent. Qed.

Lemma chat_with_A_B_nodup : nodup_sets chat_with_A_B.
Proof.
  do 2 apply nodup_sets_subscribe.
  exact (reachable_nodup_sets _ _ _ _ _ _ connected_reachable).
Qed.

(** C1 at the two connected sessions: the invariant holds there, after a
    presence subscribe of [A] and after the disconnection of [A]. *)
Lemma C1_witness :
  consistent connected' /\
  consistent (state_of (subscribe parse stringify sign key secret "A"
                          (VObj (presence_request' "A" "presence-room" u1)) connected')) /\
  consistent (state_of (onClose stringify "A" connected')).
Proof.
  pose proof (proj2 (C1_membership_both_ways parse stringify sign key secret)
                connected' connected_consistent) as (Hs & _ & _ & _ & Hc).
  split; [exact connected_consistent|]. split; [apply Hs | apply Hc].
Defined.

(** C10 at the initial state and the unknown session id [ghost]. *)
Lemma C10_witness :
  clients initial !! "ghost" = None /\
  subscribe parse stringify sign key secret "ghost"
    (VObj (private_request' "ghost" "private-chat")) initial = (Normal tt, initial, []) /\
  onClose stringify "ghost" initial = (Normal tt, initial, []).
Proof.
  pose proof (C10_unknown_session_no_op parse stringify sign key secret
                initial "ghost" eq_refl) as (_ & Hs & _ & _ & Hc).
  split; [reflexivity|]. split; [apply Hs | apply Hc].
Defined.

(** C10 as stated fails: [subscribe] raises on a [null] payload before it
    looks the session up. *)
Lemma C10_null_payload_raises :
  clients initial !! "ghost" = None /\
  subscribe parse stringify sign key secret "ghost" VNull initial
  = (Throw TypeError, initial, []) /\
  ~ subscribe_of_unknown_session_returns parse stringify sign key secret.
Proof.
  split; [reflexivity|]. split; [reflexivity|].
  intros H. specialize (H initial "ghost" VNull eq_refl). discriminate H.
Qed.

(** C6 at the two connected sessions, and at the unsubscribe of [A], the
    only subscriber of [private-chat]. *)
Lemma C6_witness :
  (reachable parse stringify sign key secret connected' /\ no_orphans connected') /\
  (clients chat_with_A !! "A" = Some (Client.mk ["private-chat"] None) /\
   channels chat_with_A !! "private-chat" = Some ["A"] /\
   channels chat_left !! "private-chat" = None /\
   broadcast (VObj [("name", VStr "test-event"); ("data", VStr "hi");
                    ("channels", VArr [VStr "private-chat"]); ("socket_id", VUndef)])
     chat_left
   = (Normal tt, chat_left, [])).
Proof.
  pose proof (C6_no_orphan_channels parse stringify sign key secret) as (Hreach & _ & Hlast).
  split.
  - split; [exact connected_reachable | exact (Hreach _ connected_reachable)].
  - assert (Hc : clients chat_with_A !! "A" = Some (Client.mk ["private-chat"] None))
      by (vm_compute; reflexivity).
    assert (Hch : channels chat_with_A !! "private-chat" = Some ["A"])
      by (vm_compute; reflexivity).
    split; [exact Hc|]. split; [exact Hch|].
    destruct (Hlast chat_with_A "A" _ "private-chat" Hc Hch) as [Hgone Hb].
    split; [exact Hgone | apply Hb].
Defined.







(** C8 at a publish to [private-chat] with no excluded session. *)
Lemma C8_witness :
  sent (broadcast (VObj [("name", VStr "test-event"); ("data", VStr "hi");
                         ("channels", VArr [VStr "private-chat"])]) chat_with_A_B)
  = [("A", VObj [("event", VStr "test-event"); ("channel", VStr "private-chat");
                 ("data", VStr "hi")]);
     ("B", VObj [("event", VStr "test-event"); ("channel", VStr "private-chat");
                 ("data", VStr "hi")])].
Proof.
  pose proof (C8_publish_fan_out chat_with_A_B
                [("name", VStr "test-event"); ("data", VStr "hi");
                 ("channels", VArr [VStr "private-chat"])]
                [VStr "private-chat"]
                chat_with_A_B_consistent chat_with_A_B_nodup eq_refl)
    as (_ & _ & Hsent & _).
  rewrite Hsent. vm_compute. reflexivity.
Defined.

(** C9 at [A], which joins [presence-room] as [u1] where [B] is as
    [u3], then joins [presence-lobby] as [u2] and leaves
    [presence-room]: [B] is told that [u2] has left, and the member map
    of the room keeps [u1]. *)
Lemma C9_witness :
  sent (unsubscribe stringify "A" (VStr "presence-room")
          (after_subscribe Traffic.parse stringify sign key secret "A" lobby_request
             (after_subscribe Traffic.parse stringify sign key secret "A"
                (presence_request' "A" "presence-room" u1) room_with_B)))
  = [("B", VObj [("event", VStr "pusher_internal:member_removed");
                 ("channel", VStr "presence-room");
                 ("data", VStr (stringify (VObj [("user_id", VStr "u2")])))])] /\
  Map_keys (default []
    (presence
       (state_of
          (unsubscribe stringify "A" (VStr "presence-room")
             (after_subscribe Traffic.parse stringify sign key secret "A" lobby_request
                (after_subscribe Traffic.parse stringify sign key secret "A"
                   (presence_request' "A" "presence-room" u1) room_with_B))))
       !! "presence-room"))
  = [VStr "u3"; VStr "u1"].
Proof.
  assert (Hc : clients room_with_B !! "A" = Some (Client.mk [] None))
    by (vm_compute; reflexivity).
  assert (Hcons : consistent room_with_B)
    by (apply subscribe_consistent, connected_consistent).
  pose proof (C9_identity_is_overwritten Traffic.parse stringify sign key secret
                room_with_B "A" _
                (presence_request' "A" "presence-room" u1) lobby_request
                "presence-room" "presence-lobby" u1 u2
                (VStr "u1") (VObj [("name", VStr "Ann")])
                (VStr "u2") (VObj [("name", VStr "Bob")])
                Hc Hcons
                eq_refl eq_refl eq_refl eq_refl eq_refl eq_refl
                eq_refl eq_refl eq_refl eq_refl eq_refl eq_refl eq_refl eq_refl)
    as (_ & _ & _ & _ & _ & _ & _ & Hsent & _).
  split.
  - etransitivity; [exact Hsent|]. vm_compute. reflexivity.
  - vm_compute. reflexivity.
Defined.



(** * The further properties at the example host *)

(** [A] and [B] are in [presence-room], as [u1] and [u2]. *)
Local Abbreviation room_with_A_B :=
  (after_subscribe' "B" (presence_request' "B" "presence-room" u2) room_with_A).
(** [A] and [B] are in [presence-room], both as [u1]. *)
Local Abbreviation room_shared :=
  (after_subscribe' "B" (presence_request' "B" "presence-room" u1) room_with_A).
(** [A] is in [presence-room] as [u1]; [B] is in [presence-lobby], also
    as [u1]. *)
Local Abbreviation lobby_and_room :=
  (after_subscribe' "B" (presence_request' "B" "presence-lobby" u1) room_with_A).
(** [A] is in [presence-room] as [u1], by its subscribe frame. *)
Local Abbreviation room_by_frame :=
  (state_of (onMessage Traffic.parse stringify sign key secret "A"
               (stringify Traffic.subscribe_room) connected')).
(** A request to open a socket and two publishes. *)
Local Abbreviation upgrade_request :=
  (Request.mk "/app/app-key" "GET" (Some "websocket") "").
Local Abbreviation publish_request :=
  (Request.mk "/apps/app-id/events" "POST" None (stringify Traffic.publish_chat)).
Local Abbreviation broken_publish_request :=
  (Request.mk "/apps/app-id/events" "POST" None "not json").

Lemma room_with_A_B_consistent : consistent room_with_A_B.
Proof. apply subscribe_consistent, room_with_A_consistent. Qed.

(** X1 at a ping of the connected session [A]. *)
Lemma X1_witness :
  onMessage Traffic.parse stringify sign key secret "A" (stringify Traffic.ping) connected'
  = (Normal tt, connected',
     [("A", VObj [("event", VStr "pusher:pong"); ("data", VStr "{}")])]).
Proof.
  rewrite (X1_ping_is_answered_with_pong Traffic.parse stringify sign key secret
             connected' "A" (stringify Traffic.ping) Traffic.ping eq_refl eq_refl).
  reflexivity.
Defined.

(** X2 at a frame of [A] whose event is [hello]. *)
Lemma X2_witness :
  onMessage Traffic.parse stringify sign key secret "A" (stringify Traffic.hello) connected'
  = (Normal tt, connected', []).
Proof.
  refine (X2_other_events_are_ignored Traffic.parse stringify sign key secret
            connected' "A" (stringify Traffic.hello) Traffic.hello (VStr "hello")
            eq_refl eq_refl _ _ _ _); try discriminate.
  intros e [= <-]. reflexivity.
Defined.

(** X3 at a ping on a socket that was never accepted. *)
Lemma X3_witness :
  clients initial !! "ghost" = None /\
  state_of (onMessage Traffic.parse stringify sign key secret "ghost"
              (stringify Traffic.ping) initial) = initial /\
  sent (onMessage Traffic.parse stringify sign key secret "ghost"
          (stringify Traffic.ping) initial) = [].
Proof.
  split; [reflexivity|].
  exact (X3_frames_of_an_unregistered_socket Traffic.parse stringify sign key secret
           initial "ghost" (stringify Traffic.ping) eq_refl).
Defined.

(** X4 at a third connection [C] beside [A] and [B]. *)
Lemma X4_witness :
  consistent connected' /\
  consistent (state_of (acceptWebSocket stringify "C" connected')).
Proof.
  split; [exact connected_consistent|].
  pose proof (X4_accept_registers_a_session stringify connected' "C")
    as (_ & _ & _ & _ & _ & _ & Hiff).
  apply (Hiff connected_consistent).
  intros ch Hin. unfold subscribers in Hin.
  change (channels connected') with (∅ : gmap string (list string)) in Hin.
  rewrite lookup_empty in Hin. exact (not_elem_of_nil _ Hin).
Defined.

(** X6 at a request to open a socket and at a publish to [private-chat]
    where [A] and [B] are. *)
Lemma X6_witness :
  fetch Traffic.parse stringify 1700000000000 42 upgrade_request connected'
  = (Normal (Response.mk 101 None None (Some "1700000000000.42")),
     mkDO (<["1700000000000.42" := Client.mk [] None]> (clients connected'))
          (channels connected') (presence connected'),
     [("1700000000000.42", connection_established stringify "1700000000000.42")]) /\
  fetch Traffic.parse stringify 1700000000000 42 publish_request chat_with_A_B
  = (Normal (Response.mk 202 (Some (stringify (VObj [("sent", VBool true)])))
               (Some "application/json") None),
     chat_with_A_B,
     [("A", published (VStr "test-event") (VStr "private-chat") (VStr "hi"));
      ("B", published (VStr "test-event") (VStr "private-chat") (VStr "hi"))]).
Proof.
  split.
  - pose proof (X6_fetch_of_the_object Traffic.parse stringify connected'
                  1700000000000 42 upgrade_request) as (_ & H & _).
    exact (H eq_refl).
  - pose proof (X6_fetch_of_the_object Traffic.parse stringify chat_with_A_B
                  1700000000000 42 publish_request) as (_ & _ & _ & _ & H).
    rewrite (H _ [VStr "private-chat"] eq_refl eq_refl eq_refl eq_refl).
    vm_compute. reflexivity.
Defined.

(** X7 at a publish whose body is not JSON. *)
Lemma X7_witness :
  fetch Traffic.parse stringify 1700000000000 42 broken_publish_request chat_with_A_B
  = (Throw SyntaxError, chat_with_A_B, []) /\
  Traffic.parse "not json" = None.
Proof.
  pose proof (X7_failed_publish_sends_nothing Traffic.parse stringify chat_with_A_B
                1700000000000 42 broken_publish_request SyntaxError eq_refl)
    as (Hrun & _ & _ & _ & Hsyntax & _).
  split; [exact Hrun | exact (proj1 Hsyntax eq_refl)].
Defined.

(** X9 at the digest of the example host. *)
Lemma X9_witness :
  hex [10; 14; 10; 255]%N = hex (sign secret "A:private-chat") <->
  [10; 14; 10; 255]%N = sign secret "A:private-chat".
Proof.
  apply X9_hex_keeps_the_digest; repeat constructor.
Defined.

(** X10 at the subscribe of [A] to the public channel [news]. *)
Lemma X10_witness :
  sent (subscribe Traffic.parse stringify sign key secret "A" Traffic.news connected')
  = [("A", VObj [("event", VStr "pusher_internal:subscription_succeeded");
                 ("channel", VStr "news"); ("data", VStr "{}")]);
     ("A", VObj [("event", VStr "pusher:subscription_succeeded");
                 ("channel", VStr "news"); ("data", VStr "{}")])] /\
  subscribe Traffic.parse stringify sign key secret "A" Traffic.news
    (state_of (subscribe Traffic.parse stringify sign key secret "A" Traffic.news connected'))
  = (Normal tt,
     state_of (subscribe Traffic.parse stringify sign key secret "A" Traffic.news connected'),
     [("A", VObj [("event", VStr "pusher_internal:subscription_succeeded");
                  ("channel", VStr "news"); ("data", VStr "{}")]);
      ("A", VObj [("event", VStr "pusher:subscription_succeeded");
                  ("channel", VStr "news"); ("data", VStr "{}")])]).
Proof.
  assert (Hc : clients connected' !! "A" = Some (Client.mk [] None))
    by (vm_compute; reflexivity).
  pose proof (X10_public_subscribe_is_idempotent Traffic.parse stringify sign key secret
                connected' "A" _ Traffic.news "news" Hc eq_refl eq_refl)
    as (_ & Hsent & _ & _ & Hagain).
  split; [exact Hsent | exact Hagain].
Defined.

(** X11 at [A], which subscribes to [news] and unsubscribes from it. *)
Lemma X11_witness :
  unsubscribe stringify "A" (VStr "news")
    (state_of (subscribe Traffic.parse stringify sign key secret "A" Traffic.news connected'))
  = (Normal tt, connected', []).
Proof.
  assert (Hc : clients connected' !! "A" = Some (Client.mk [] None))
    by (vm_compute; reflexivity).
  assert (Horph : no_orphans connected')
    by exact (reachable_no_orphans _ _ _ _ _ _ connected_reachable).
  refine (proj2 (X11_subscribe_then_unsubscribe Traffic.parse stringify sign key secret
                   connected' "A" _ Traffic.news "news" Hc connected_consistent Horph
                   eq_refl eq_refl (or_introl eq_refl) _)).
  apply not_elem_of_nil.
Defined.

(** X12 at [A], which leaves [presence-room] twice while [B] is there. *)
Lemma X12_witness :
  sent (unsubscribe stringify "A" (VStr "presence-room")
          (state_of (unsubscribe stringify "A" (VStr "presence-room") room_with_A_B)))
  = sent (unsubscribe stringify "A" (VStr "presence-room") room_with_A_B) /\
  sent (unsubscribe stringify "A" (VStr "presence-room") room_with_A_B)
  = [("B", member_removed stringify "presence-room"
             (User.mk (VStr "u1") (VObj [("name", VStr "Ann")])))].
Proof.
  assert (Ha : clients room_with_A_B !! "A"
               = Some (Client.mk ["presence-room"]
                         (Some (User.mk (VStr "u1") (VObj [("name", VStr "Ann")])))))
    by (vm_compute; reflexivity).
  pose proof (X12_unsubscribe_twice stringify room_with_A_B "A" _ "presence-room" Ha)
    as (_ & _ & Hsent & _).
  split; [exact Hsent | vm_compute; reflexivity].
Defined.

(** X13 at the disconnection of [A] from [presence-room], where [B] is. *)
Lemma X13_witness :
  clients (state_of (onClose stringify "A" room_with_A_B)) !! "A" = None /\
  subscribers (state_of (onClose stringify "A" room_with_A_B)) "presence-room"
  = Set_delete "A" (subscribers room_with_A_B "presence-room").
Proof.
  assert (Ha : clients room_with_A_B !! "A"
               = Some (Client.mk ["presence-room"]
                         (Some (User.mk (VStr "u1") (VObj [("name", VStr "Ann")])))))
    by (vm_compute; reflexivity).
  pose proof (X13_close_forgets_the_session stringify room_with_A_B "A" _ Ha
                room_with_A_B_consistent) as (_ & Hgone & _ & Hsubs & _).
  split; [exact Hgone | exact (Hsubs "presence-room")].
Defined.

(** X14 at the same disconnection: [B] is told, [A] is not. *)
Lemma X14_witness :
  ("B", VObj [("event", VStr "pusher_internal:member_removed");
              ("channel", VStr "presence-room");
              ("data", VStr (stringify (VObj [("user_id", VStr "u1")])))])
    ∈ sent (onClose stringify "A" room_with_A_B).
Proof.
  assert (Ha : clients room_with_A_B !! "A"
               = Some (Client.mk ["presence-room"]
                         (Some (User.mk (VStr "u1") (VObj [("name", VStr "Ann")])))))
    by (vm_compute; reflexivity).
  pose proof (X14_close_announcements stringify room_with_A_B "A" _ Ha
                room_with_A_B_consistent) as [Hiff _].
  apply Hiff. exists "presence-room", (User.mk (VStr "u1") (VObj [("name", VStr "Ann")])).
  split_and!; try reflexivity; try discriminate.
  - apply list_elem_of_here.
  - vm_compute. apply list_elem_of_further, list_elem_of_here.
Defined.

(** X15 at the state that the subscribe frame of [A] for
    [presence-room] leaves, where the room has a member map, and at the
    disconnection of [A] from there. *)
Lemma X15_witness :
  reachable Traffic.parse stringify sign key secret room_by_frame /\
  presence room_by_frame !! "presence-room"
  = Some [(VStr "u1", VObj [("name", VStr "Ann")])] /\
  presence_on_presence_channels room_by_frame /\
  presence_on_presence_channels (state_of (onClose stringify "A" room_by_frame)).
Proof.
  assert (Hr : reachable Traffic.parse stringify sign key secret room_by_frame).
  { apply reach_message. unfold connected.
    apply reach_accept; [apply reach_accept; [apply reach_initial | reflexivity] | reflexivity]. }
  pose proof (X15_presence_store_holds_presence_channels_only
                Traffic.parse stringify sign key secret) as [Hreach Hstep].
  split_and!; [exact Hr | vm_compute; reflexivity | exact (Hreach _ Hr) |].
  exact (proj2 (Hstep _ (Hreach _ Hr)) "A").
Defined.

(** X16 at [presence-room] with its only subscriber [A], who leaves as
    [u1]. *)
Lemma X16_witness :
  is_Some (presence room_with_A !! "presence-room") /\
  (VStr "u1", VObj [("name", VStr "Ann")])
    ∈ default [] (presence room_with_A !! "presence-room") /\
  channels (state_of (unsubscribe stringify "A" (VStr "presence-room") room_with_A))
    !! "presence-room" = None /\
  is_Some (presence (state_of (unsubscribe stringify "A" (VStr "presence-room") room_with_A))
             !! "presence-room") /\
  ((VStr "u1", VObj [("name", VStr "Ann")])
     ∉ default []
         (presence (state_of (unsubscribe stringify "A" (VStr "presence-room") room_with_A))
            !! "presence-room")).
Proof.
  assert (Hsome : is_Some (presence room_with_A !! "presence-room"))
    by (eexists; vm_compute; reflexivity).
  assert (Ha : clients room_with_A !! "A"
               = Some (Client.mk ["presence-room"]
                         (Some (User.mk (VStr "u1") (VObj [("name", VStr "Ann")])))))
    by (vm_compute; reflexivity).
  pose proof (X16_presence_entries_are_never_deleted parse stringify sign key secret
                room_with_A "presence-room" Hsome) as (_ & _ & _ & _ & Hlast).
  destruct (Hlast "A" _ _ Ha eq_refl eq_refl eq_refl eq_refl) as (Hgone & Hstays & Hrest).
  split_and!; [exact Hsome | | exact Hgone | exact Hstays |].
  - vm_compute. apply list_elem_of_here.
  - intros Hin. apply Hrest in Hin as [_ Hne]. by apply Hne.
Defined.

(** X17 at [A] and [B], both in [presence-room] as [u1]: [A] leaves. *)
Lemma X17_witness :
  "B" ∈ subscribers
          (state_of (unsubscribe stringify "A" (VStr "presence-room") room_shared))
          "presence-room" /\
  (VStr "u1"
     ∉ Map_keys (default []
         (presence (state_of (unsubscribe stringify "A" (VStr "presence-room") room_shared))
            !! "presence-room"))).
Proof.
  assert (Ha : clients room_shared !! "A"
               = Some (Client.mk ["presence-room"]
                         (Some (User.mk (VStr "u1") (VObj [("name", VStr "Ann")])))))
    by (vm_compute; reflexivity).
  assert (Hb : clients room_shared !! "B"
               = Some (Client.mk ["presence-room"]
                         (Some (User.mk (VStr "u1") (VObj [("name", VStr "Ann")])))))
    by (vm_compute; reflexivity).
  assert (Hin : "B" ∈ subscribers room_shared "presence-room").
  { vm_compute. apply list_elem_of_further, list_elem_of_here. }
  assert (Hne : "B" <> "A") by discriminate.
  destruct (X17_presence_is_keyed_by_user_id stringify room_shared "A" _ _
              "presence-room" "B" _ _ Ha eq_refl eq_refl eq_refl Hne Hin Hb eq_refl eq_refl)
    as (Hstill & _ & Hkey).
  split; [exact Hstill | exact Hkey].
Defined.

(** X18 at [A], which keeps its identity [u1] when it leaves
    [presence-room]. *)
Lemma X18_witness :
  Client.user <$> clients (state_of (unsubscribe stringify "A" (VStr "presence-room")
                                       room_with_A)) !! "A"
  = Some (Some (User.mk (VStr "u1") (VObj [("name", VStr "Ann")]))).
Proof.
  rewrite (proj1 (X18_identity_is_kept parse stringify sign key secret room_with_A "A")).
  vm_compute. reflexivity.
Defined.


(** X20 at the application key [app:key] and the credential made with
    it. *)
Lemma X20_witness :
  colon_free "app:key" = false /\
  verifies sign "app:key" secret "A" "private-chat"
    (VObj [("channel", VStr "private-chat"); ("auth", VStr "app:key:0a0e0aff")]) = false.
Proof.
  split; [reflexivity|].
  exact (proj1 (X20_key_with_a_colon_locks_out parse stringify sign "app:key" secret
                  "A" "private-chat" _ eq_refl)).
Defined.

(** X21 at the credential of [A] for [private-chat:x], presented for
    [private-chat] with the channel data [x]. *)
Lemma X21_witness :
  subscribe parse stringify sign key secret "A"
    (VObj [("channel", VStr "private-chat");
           ("auth", auth_for sign key secret (auth_base "A" "private-chat:x" VUndef));
           ("channel_data", VStr "x")]) connected'
  = (Normal tt, joined "A" "private-chat" connected',
     [("A", subscription_succeeded_internal "private-chat" "{}");
      ("A", subscription_succeeded "private-chat")]).
Proof.
  assert (Hc : clients connected' !! "A" = Some (Client.mk [] None))
    by (vm_compute; reflexivity).
  assert (Hne : "x" <> "") by discriminate.
  exact (proj2 (X21_signed_text_is_ambiguous parse stringify sign key secret
                  connected' "A" _ "private-chat" "x" Hc eq_refl eq_refl eq_refl Hne)).
Defined.

(** X22 at [A], which subscribes to [news] and is reached by a publish
    to it. *)
Lemma X22_witness :
  sent (worker_fetch Traffic.parse stringify key "app-id" 1700000000000 42
          (Request.mk "/apps/app-id/events" "POST" None (stringify Traffic.publish_news))
          (state_of (subscribe Traffic.parse stringify sign key secret "A" Traffic.news
                       connected')))
  = [("A", VObj [("event", VStr "test-event"); ("channel", VStr "news");
                 ("data", VStr "hi")])].
Proof.
  assert (Hc : clients connected' !! "A" = Some (Client.mk [] None))
    by (vm_compute; reflexivity).
  pose proof (X22_publish_reaches_the_subscriber Traffic.parse stringify sign key secret
                connected' "A" _ Traffic.news "news" "app-id" 1700000000000 42
                (Request.mk "/apps/app-id/events" "POST" None
                   (stringify Traffic.publish_news))
                _ Hc connected_consistent eq_refl eq_refl eq_refl eq_refl eq_refl
                eq_refl eq_refl eq_refl) as (_ & _ & Hsent & _).
  rewrite Hsent. vm_compute. reflexivity.
Defined.


(** X24 at [B], which is in [presence-lobby] as [u1] and leaves
    [presence-room], where only [A] is, also as [u1]. *)
Lemma X24_witness :
  sent (unsubscribe stringify "B" (VStr "presence-room") lobby_and_room)
  = [("A", VObj [("event", VStr "pusher_internal:member_removed");
                 ("channel", VStr "presence-room");
                 ("data", VStr (stringify (VObj [("user_id", VStr "u1")])))])] /\
  VStr "u1"
    ∈ Map_keys (default [] (presence lobby_and_room !! "presence-room")) /\
  (VStr "u1"
     ∉ Map_keys (default []
         (presence (state_of (unsubscribe stringify "B" (VStr "presence-room")
                                lobby_and_room)) !! "presence-room"))).
Proof.
  assert (Hb : clients lobby_and_room !! "B"
               = Some (Client.mk ["presence-lobby"]
                         (Some (User.mk (VStr "u1") (VObj [("name", VStr "Ann")])))))
    by (vm_compute; reflexivity).
  assert (Hcons : consistent lobby_and_room)
    by (apply subscribe_consistent, room_with_A_consistent).
  assert (Horph : no_orphans lobby_and_room).
  { apply no_orphans_subscribe, no_orphans_subscribe.
    exact (reachable_no_orphans _ _ _ _ _ _ connected_reachable). }
  assert (Hnot : "presence-room" ∉ ["presence-lobby"]).
  { intros H. apply list_elem_of_singleton in H. discriminate H. }
  pose proof (X24_leave_without_membership stringify lobby_and_room "B" _ "presence-room"
                Hb Hcons Horph Hnot) as (_ & _ & _ & _ & Hlast).
  destruct (Hlast _ eq_refl eq_refl) as [Hpres Hsent].
  split_and!.
  - rewrite Hsent. vm_compute. reflexivity.
  - vm_compute. apply list_elem_of_here.
  - rewrite Hpres. vm_compute. apply not_elem_of_nil.
Defined.

(** X25 at a subscribe of [A] whose payload is the empty object. *)
Lemma X25_witness :
  subscribe parse stringify sign key secret "A" (VObj []) connected'
  = (Throw TypeError, connected', []) /\
  unsubscribe stringify "A" VUndef connected' = (Throw TypeError, connected', []).
Proof.
  assert (Hc : clients connected' !! "A" = Some (Client.mk [] None))
    by (vm_compute; reflexivity).
  assert (Hns : forall ch, VUndef <> VStr ch) by discriminate.
  pose proof (X25_channel_must_be_a_string parse stringify sign key secret
                connected' "A" _ VUndef Hc Hns) as (Hsub & Hunsub & _).
  split; [exact (Hsub (VObj []) eq_refl) | exact Hunsub].
Defined.
